(** * form-system: the login / register / forgot-password form of [src/app/page.tsx]

    A shallow embedding of the form controls and of the [LoginSystem]
    component: the handlers are pure functions over the component state (React
    state is threaded explicitly, one handler call per rendered state), JS
    objects used as maps are [gmap string _], and the few pieces of the JS
    runtime the handlers rely on (truthiness, [toLowerCase], [includes],
    [RegExp.prototype.test]) are written out in [Module Js].

    Strings are [string]: a character is a UTF-16 code unit below 256
    (Basic Latin and Latin-1 Supplement), which covers every literal of the
    page. *)

From Stdlib Require Import Ascii String NArith.
From stdpp Require Import gmap strings list fin_maps.

Local Open Scope N_scope.

(* ===================================================================== *)
(** ** The JavaScript runtime, as far as the page uses it                 *)
(* ===================================================================== *)

Module Js.

(** [\s]: WhiteSpace and LineTerminator code units below 256
    (TAB, LF, VT, FF, CR, SP, NBSP). *)
Definition is_space (c : ascii) : bool :=
  let n := N_of_ascii c in
  ((9 <=? n) && (n <=? 13)) || (n =? 32) || (n =? 160).

(** [\S] *)
Definition non_space (c : ascii) : bool := negb (is_space c).

(** [String.prototype.toLowerCase], one code unit: A-Z, and the Latin-1
    capitals U+00C0..U+00DE without the multiplication sign U+00D7. *)
Definition toLowerCase_char (c : ascii) : ascii :=
  let n := N_of_ascii c in
  if ((65 <=? n) && (n <=? 90))
     || ((192 <=? n) && (n <=? 222) && negb (n =? 215))
  then ascii_of_N (n + 32) else c.

Fixpoint toLowerCase (s : string) : string :=
  match s with
  | EmptyString => EmptyString
  | String c s' => String (toLowerCase_char c) (toLowerCase s')
  end.

(** [toUpperCase] on the ASCII letters; the page applies it to the first
    letter of a mode tag only. *)
Definition toUpperCase_char (c : ascii) : ascii :=
  let n := N_of_ascii c in
  if (97 <=? n) && (n <=? 122) then ascii_of_N (n - 32) else c.

(** [s.charAt(0).toUpperCase() + s.slice(1)] *)
Definition capitalize (s : string) : string :=
  match s with
  | EmptyString => EmptyString
  | String c s' => String (toUpperCase_char c) s'
  end.

(** [s.startsWith(t)] *)
Fixpoint startsWith (s t : string) {struct t} : bool :=
  match t, s with
  | EmptyString, _ => true
  | String _ _, EmptyString => false
  | String b t', String a s' => bool_decide (a = b) && startsWith s' t'
  end.

(** [String.prototype.includes]: [t] occurs in [s] at some position. *)
Fixpoint includes (s t : string) : bool :=
  startsWith s t ||
  match s with
  | EmptyString => false
  | String _ s' => includes s' t
  end.

(** The values a form field can hold at run time. *)
Inductive Value :=
| VString (s : string)
| VArray (l : list string)
| VBoolean (b : bool)
| VUndefined.

(** ToBoolean *)
Definition truthy (v : Value) : bool :=
  match v with
  | VString s => negb (bool_decide (s = ""))
  | VArray _ => true
  | VBoolean b => b
  | VUndefined => false
  end.

(** [l.join(",")] *)
Fixpoint join (l : list string) : string :=
  match l with
  | [] => ""
  | [x] => x
  | x :: l' => x +:+ "," +:+ join l'
  end.

(** ToString, applied by [RegExp.prototype.test] to its argument. *)
Definition ToString (v : Value) : string :=
  match v with
  | VString s => s
  | VArray l => join l
  | VBoolean true => "true"
  | VBoolean false => "false"
  | VUndefined => "undefined"
  end.

(** [v.length]: defined on strings and arrays, [undefined] on a boolean.
    On [undefined] the property access throws; [validateForm] never gets
    there (see [validateForm_length_guard]). *)
Definition length_of (v : Value) : option nat :=
  match v with
  | VString s => Some (String.length s)
  | VArray l => Some (length l)
  | VBoolean _ => None
  | VUndefined => None
  end.

(** [v.length < n]: a comparison with [undefined] is false. *)
Definition length_lt (v : Value) (n : nat) : bool :=
  match length_of v with
  | Some k => bool_decide (k < n)%nat
  | None => false
  end.

(** [a === b]. Arrays are objects and compare by identity; each array a
    change event carries is freshly allocated by its control, so two
    array-valued fields are never the same object. *)
Definition strict_equal (a b : Value) : bool :=
  match a, b with
  | VString s, VString t => bool_decide (s = t)
  | VBoolean x, VBoolean y => bool_decide (x = y)
  | VUndefined, VUndefined => true
  | _, _ => false
  end.

(** [o[k]] on a plain data object whose keys are not members of
    [Object.prototype]: a missing key reads as [undefined]. *)
Definition get (o : gmap string Value) (k : string) : Value :=
  default VUndefined (o !! k).

(** [Object.keys(o)]; only its length is ever used, so the enumeration
    order is left to the map. *)
Definition Object_keys {V} (o : gmap string V) : list string :=
  (map_to_list o).*1.

(** The property names every object inherits from [Object.prototype];
    reading one of them on an object that has no own property of that name
    gives a function (or, for [__proto__], the prototype), which is truthy. *)
Definition Object_prototype_names : list string :=
  [ "constructor"; "hasOwnProperty"; "isPrototypeOf";
    "propertyIsEnumerable"; "toLocaleString"; "toString"; "valueOf";
    "__proto__"; "__defineGetter__"; "__defineSetter__";
    "__lookupGetter__"; "__lookupSetter__" ].

(** *** Regular expressions *)

Inductive regex :=
| Void
| Eps
| Class (p : ascii -> bool)
| Alt (r1 r2 : regex)
| Cat (r1 r2 : regex)
| Star (r : regex).

(** [r+] *)
Definition Plus (r : regex) : regex := Cat r (Star r).

(** a literal character *)
Definition Chr (c : ascii) : regex := Class (fun x => bool_decide (x = c)).

Fixpoint nullable (r : regex) : bool :=
  match r with
  | Void => false
  | Eps => true
  | Class _ => false
  | Alt r1 r2 => nullable r1 || nullable r2
  | Cat r1 r2 => nullable r1 && nullable r2
  | Star _ => true
  end.

(** Brzozowski derivative: what is left of [r] after reading [c]. *)
Fixpoint deriv (c : ascii) (r : regex) : regex :=
  match r with
  | Void => Void
  | Eps => Void
  | Class p => if p c then Eps else Void
  | Alt r1 r2 => Alt (deriv c r1) (deriv c r2)
  | Cat r1 r2 =>
      if nullable r1 then Alt (Cat (deriv c r1) r2) (deriv c r2)
      else Cat (deriv c r1) r2
  | Star r1 => Cat (deriv c r1) (Star r1)
  end.

(** Some prefix of [s] matches [r]. *)
Fixpoint matches_prefix (r : regex) (s : string) : bool :=
  nullable r ||
  match s with
  | EmptyString => false
  | String c s' => matches_prefix (deriv c r) s'
  end.

(** [r.test(s)] for a pattern without anchors or flags: a match may start
    at any position of [s]. *)
Fixpoint test (r : regex) (s : string) : bool :=
  matches_prefix r s ||
  match s with
  | EmptyString => false
  | String _ s' => test r s'
  end.

End Js.

(* ===================================================================== *)
(** ** Shared data: options and the normalized change event               *)
(* ===================================================================== *)

(** [interface Option { value: string; label: string }] *)
Record Option := { opt_value : string; opt_label : string }.

(** [e.target] of a change event, native or synthesized by a control. A
    property the object does not have is [None] (or [VUndefined] for
    [value]). *)
Module Event.
Record Target := {
  name : option string;
  value : Js.Value;
  type : option string;
  checked : option bool
}.
End Event.

(* ===================================================================== *)
(** ** Select (searchable popover)                                        *)
(* ===================================================================== *)

Module Select.

(** The two [useState] cells of the control. *)
Record State := { isOpen : bool; searchTerm : string }.

Definition init : State := {| isOpen := false; searchTerm := "" |}.

(** [enableSearch ? options.filter(opt =>
      opt.label.toLowerCase().includes(searchTerm.toLowerCase())) : options] *)
Definition filteredOptions (enableSearch : bool) (options : list Option)
    (searchTerm : string) : list Option :=
  if enableSearch then
    List.filter
      (fun opt => Js.includes (Js.toLowerCase (opt_label opt))
                              (Js.toLowerCase searchTerm))
      options
  else options.

(** The [<li>] children of the list. *)
Inductive Row :=
| OptionRow (option : Option)   (* has an [onClick] *)
| NoOptionsFound.               (* plain text, no handler *)

(** [filteredOptions.length > 0 ? filteredOptions.map(...) : <li>No options found</li>] *)
Definition rows (filtered : list Option) : list Row :=
  if bool_decide (0 < length filtered)%nat then List.map OptionRow filtered
  else [NoOptionsFound].

(** Text shown in a row. *)
Definition row_text (r : Row) : string :=
  match r with
  | OptionRow o => opt_label o
  | NoOptionsFound => "No options found"
  end.

(** Clicking a row: an option row emits [{ target: { name, value } }],
    closes the popover and clears the search; the placeholder row has no
    click handler. *)
Definition row_onClick (name : option string) (st : State) (r : Row)
    : option (Event.Target * State) :=
  match r with
  | OptionRow o =>
      Some ({| Event.name := name; Event.value := Js.VString (opt_value o);
               Event.type := None; Event.checked := None |},
            {| isOpen := false; searchTerm := "" |})
  | NoOptionsFound => None
  end.

(** The rows on screen: [{isOpen && <div> ... <ul>rows</ul></div>}]. *)
Definition displayed (enableSearch : bool) (options : list Option)
    (st : State) : list Row :=
  if isOpen st then rows (filteredOptions enableSearch options (searchTerm st))
  else [].

End Select.

(* ===================================================================== *)
(** ** CheckboxGroup                                                      *)
(* ===================================================================== *)

Module CheckboxGroup.

(** [handleChange]: [checked] and [optionValue] are read off the native
    event of the toggled checkbox, [value] is the selected-values prop. *)
Definition handleChange (name : option string) (value : list string)
    (checked : bool) (optionValue : string) : Event.Target :=
  let newValues :=
    if checked then value ++ [optionValue]
    else List.filter (fun v => negb (bool_decide (v = optionValue))) value in
  {| Event.name := name; Event.value := Js.VArray newValues;
     Event.type := Some "checkbox"; Event.checked := None |}.

(** [value.includes(option.value)]: the [checked] attribute a box is
    rendered with. *)
Definition rendered_checked (value : list string) (optionValue : string) : bool :=
  bool_decide (optionValue ∈ value).

(** The user toggles the box of [optionValue]: the browser flips the
    rendered state and fires the change event. *)
Definition toggle (name : option string) (value : list string)
    (optionValue : string) : Event.Target :=
  handleChange name value (negb (rendered_checked value optionValue)) optionValue.

(** The array an emitted event carries. *)
Definition emitted_values (t : Event.Target) : list string :=
  match Event.value t with
  | Js.VArray l => l
  | _ => []
  end.

End CheckboxGroup.

(* ===================================================================== *)
(** ** Toggle                                                             *)
(* ===================================================================== *)

Module Toggle.

(** [handleToggle]: emits the inverted [checked] prop. *)
Definition handleToggle (name : option string) (checked : bool) : Event.Target :=
  {| Event.name := name; Event.value := Js.VUndefined;
     Event.type := Some "checkbox"; Event.checked := Some (negb checked) |}.

End Toggle.

(* ===================================================================== *)
(** ** Form wrapper                                                       *)
(* ===================================================================== *)

Module Form.

(** The part of the submit event the wrapper touches. *)
Record FormEvent := { defaultPrevented : bool }.

(** [e.preventDefault()] *)
Definition preventDefault (e : FormEvent) : FormEvent :=
  {| defaultPrevented := true |}.

(** [handleSubmit]. [isValid] is the prop as passed ([None]: omitted, the
    destructuring default [true] applies); [onSubmit] is the callback prop.
    The result is the event after the call and, when the callback was
    invoked, what it returned. *)
Definition handleSubmit {A} (isValid : option bool)
    (onSubmit : option (FormEvent -> A)) (e : FormEvent)
    : FormEvent * option A :=
  let isValid := default true isValid in
  let e := preventDefault e in
  match isValid, onSubmit with
  | true, Some f => (e, Some (f e))
  | _, _ => (e, None)
  end.

End Form.

(* ===================================================================== *)
(** ** LoginSystem: the orchestrator                                      *)
(* ===================================================================== *)

Module LoginSystem.

(** ['login' | 'register' | 'forgot'] *)
Inductive FormType := login | register | forgot.

Global Instance FormType_eq_dec : EqDecision FormType.
Proof. solve_decision. Defined.

Definition tag (t : FormType) : string :=
  match t with
  | login => "login"
  | register => "register"
  | forgot => "forgot"
  end.

(** The three [useState] cells. [formData] and [errors] are plain JS
    objects keyed by field name. *)
Record State := {
  formType : FormType;
  formData : gmap string Js.Value;
  errors : gmap string string
}.

Definition initial_formData : gmap string Js.Value :=
  <["email" := Js.VString ""]> $
  <["password" := Js.VString ""]> $
  <["confirmPassword" := Js.VString ""]> $
  <["name" := Js.VString ""]> $
  <["gender" := Js.VString ""]> $
  <["role" := Js.VString "user"]> $
  <["rememberMe" := Js.VBoolean false]> $
  <["acceptTerms" := Js.VBoolean false]> $
  <["bio" := Js.VString ""]> $
  <["interests" := Js.VArray []]> $
  <["marketingPreferences" := Js.VString ""]> ∅.

Definition init : State :=
  {| formType := login; formData := initial_formData; errors := ∅ |}.

(** The truthiness of [errors[name]]: an own entry counts when its message
    is not the empty string; without an own entry the lookup falls through
    to [Object.prototype]. *)
Definition has_error (errors : gmap string string) (name : string) : bool :=
  match errors !! name with
  | Some msg => negb (bool_decide (msg = ""))
  | None => bool_decide (name ∈ Js.Object_prototype_names)
  end.

(** [handleChange] *)
Definition handleChange (st : State) (t : Event.Target) : State :=
  match Event.name t with
  | Some name =>
      if negb (bool_decide (name = "")) then
        let stored :=
          match Event.type t, Event.checked t with
          | Some ty, Some checked =>
              if bool_decide (ty = "checkbox") then Js.VBoolean checked
              else Event.value t
          | _, _ => Event.value t
          end in
        {| formType := formType st;
           formData := <[name := stored]> (formData st);
           (* Clear error when field is edited *)
           errors := if has_error (errors st) name
                     then <[name := ""]> (errors st)
                     else errors st |}
      else st
  | None => st
  end.

(** The pattern of the email check, [/\S+@\S+\.\S+/]. *)
Definition email_pattern : Js.regex :=
  Js.Cat (Js.Plus (Js.Class Js.non_space))
    (Js.Cat (Js.Chr "@")
       (Js.Cat (Js.Plus (Js.Class Js.non_space))
          (Js.Cat (Js.Chr ".") (Js.Plus (Js.Class Js.non_space))))).

(** [validateForm]: the fresh error map handed to [setErrors], and the
    boolean returned. *)
Definition validateForm (formType : FormType) (formData : gmap string Js.Value)
    : gmap string string * bool :=
  let newErrors : gmap string string := ∅ in
  (* Email validation *)
  let newErrors :=
    if negb (Js.truthy (Js.get formData "email")) then
      <["email" := "Email is required"]> newErrors
    else if negb (Js.test email_pattern (Js.ToString (Js.get formData "email"))) then
      <["email" := "Email is invalid"]> newErrors
    else newErrors in
  (* Password validation for login and register *)
  let newErrors :=
    if negb (bool_decide (formType = forgot))
       && negb (Js.truthy (Js.get formData "password")) then
      <["password" := "Password is required"]> newErrors
    else if bool_decide (formType = register)
            && Js.length_lt (Js.get formData "password") 8 then
      <["password" := "Password must be at least 8 characters"]> newErrors
    else newErrors in
  (* Confirm password validation *)
  let newErrors :=
    if bool_decide (formType = register)
       && negb (Js.strict_equal (Js.get formData "password")
                                (Js.get formData "confirmPassword")) then
      <["confirmPassword" := "Passwords do not match"]> newErrors
    else newErrors in
  (* Name validation for register *)
  let newErrors :=
    if bool_decide (formType = register)
       && negb (Js.truthy (Js.get formData "name")) then
      <["name" := "Name is required"]> newErrors
    else newErrors in
  (* Gender validation for register *)
  let newErrors :=
    if bool_decide (formType = register)
       && negb (Js.truthy (Js.get formData "gender")) then
      <["gender" := "Gender is required"]> newErrors
    else newErrors in
  (* Terms checkbox for register *)
  let newErrors :=
    if bool_decide (formType = register)
       && negb (Js.truthy (Js.get formData "acceptTerms")) then
      <["acceptTerms" := "You must accept the terms"]> newErrors
    else newErrors in
  (newErrors, bool_decide (length (Js.Object_keys newErrors) = 0%nat)).

(** What a handler does to the outside world. *)
Inductive Effect :=
| ConsoleLog (msg : string) (data : gmap string Js.Value)
| Alert (msg : string).

(** [handleSubmit] of the orchestrator, the callback given to [Form]. *)
Definition handleSubmit (st : State) (e : Form.FormEvent)
    : State * list Effect :=
  let '(newErrors, ok) := validateForm (formType st) (formData st) in
  let st' := {| formType := formType st; formData := formData st;
                errors := newErrors |} in
  if ok then
    (st', [ ConsoleLog "Form submitted:" (formData st);
            Alert (Js.capitalize (tag (formType st)) +:+ " successful!") ])
  else (st', []).

(** [const isFormValid = Object.keys(errors).length === 0] *)
Definition isFormValid (st : State) : bool :=
  bool_decide (length (Js.Object_keys (errors st)) = 0%nat).

(** [disabled={!isFormValid}] on the submit button. *)
Definition submit_disabled (st : State) : bool := negb (isFormValid st).

Definition setFormType (t : FormType) (st : State) : State :=
  {| formType := t; formData := formData st; errors := errors st |}.

Definition setErrors (errs : gmap string string) (st : State) : State :=
  {| formType := formType st; formData := formData st; errors := errs |}.

(** The [onClick] handlers of the four mode links. *)
Definition forgotPassword_onClick (st : State) : State :=
  setFormType forgot st.

Definition signUp_onClick (st : State) : State :=
  setErrors ∅ (setFormType register st).

Definition signIn_onClick (st : State) : State :=
  setErrors ∅ (setFormType login st).

Definition backToLogin_onClick (st : State) : State :=
  setErrors ∅ (setFormType login st).

(** What the user can do to the rendered page. *)
Inductive Action :=
| Change (t : Event.Target)
| Submit
| ClickForgotPassword
| ClickSignUp
| ClickSignIn
| ClickBackToLogin.

(** The mode links are rendered conditionally on [formType]. *)
Definition rendered (st : State) (a : Action) : bool :=
  match a with
  | Change _ | Submit => true
  | ClickForgotPassword | ClickSignUp => bool_decide (formType st = login)
  | ClickSignIn => bool_decide (formType st = register)
  | ClickBackToLogin => bool_decide (formType st = forgot)
  end.

(** The submit gesture on the rendered page:
    [<Form onSubmit={handleSubmit} isValid={isFormValid}>]. The second
    component tells whether the orchestrator's handler ran. *)
Definition submit (st : State) : State * option (list Effect) :=
  match Form.handleSubmit (Some (isFormValid st)) (Some (handleSubmit st))
          {| Form.defaultPrevented := false |} with
  | (_, Some (st', out)) => (st', Some out)
  | (_, None) => (st, None)
  end.

(** One user action; an action on a link that is not rendered cannot
    happen and leaves the state alone. *)
Definition step (st : State) (a : Action) : State :=
  if rendered st a then
    match a with
    | Change t => handleChange st t
    | Submit => (submit st).1
    | ClickForgotPassword => forgotPassword_onClick st
    | ClickSignUp => signUp_onClick st
    | ClickSignIn => signIn_onClick st
    | ClickBackToLogin => backToLogin_onClick st
    end
  else st.

(** The mode links that change the mode, with source and target. *)
Inductive Transition := LoginToRegister | RegisterToLogin | ForgotToLogin | LoginToForgot.

Definition source (tr : Transition) : FormType :=
  match tr with
  | LoginToRegister | LoginToForgot => login
  | RegisterToLogin => register
  | ForgotToLogin => forgot
  end.

Definition target (tr : Transition) : FormType :=
  match tr with
  | LoginToRegister => register
  | RegisterToLogin | ForgotToLogin => login
  | LoginToForgot => forgot
  end.

Definition transition (tr : Transition) (st : State) : State :=
  match tr with
  | LoginToRegister => signUp_onClick st
  | RegisterToLogin => signIn_onClick st
  | ForgotToLogin => backToLogin_onClick st
  | LoginToForgot => forgotPassword_onClick st
  end.

(** The option lists owned by the orchestrator. *)
Definition roleOptions : list Option :=
  [ {| opt_value := "user"; opt_label := "Regular User" |};
    {| opt_value := "admin"; opt_label := "Administrator" |};
    {| opt_value := "editor"; opt_label := "Content Editor" |} ].

Definition interestOptions : list Option :=
  [ {| opt_value := "technology"; opt_label := "Technology" |};
    {| opt_value := "sports"; opt_label := "Sports" |};
    {| opt_value := "music"; opt_label := "Music" |};
    {| opt_value := "art"; opt_label := "Art" |};
    {| opt_value := "science"; opt_label := "Science" |} ].

End LoginSystem.

(* ===================================================================== *)
(** ** Specification-side notions                                         *)
(* ===================================================================== *)

(** The strings a pattern denotes. *)
Inductive lang : Js.regex -> string -> Prop :=
| lang_eps : lang Js.Eps ""
| lang_class p c : p c = true -> lang (Js.Class p) (String c "")
| lang_alt_l r1 r2 s : lang r1 s -> lang (Js.Alt r1 r2) s
| lang_alt_r r1 r2 s : lang r2 s -> lang (Js.Alt r1 r2) s
| lang_cat r1 r2 s1 s2 :
    lang r1 s1 -> lang r2 s2 -> lang (Js.Cat r1 r2) (s1 +:+ s2)
| lang_star_nil r : lang (Js.Star r) ""
| lang_star_cons r s1 s2 :
    lang r s1 -> lang (Js.Star r) s2 -> lang (Js.Star r) (s1 +:+ s2).

Fixpoint all_chars (p : ascii -> bool) (s : string) : bool :=
  match s with
  | EmptyString => true
  | String c s' => p c && all_chars p s'
  end.

(** [<non-space>+]: one or more characters, none of them white space. *)
Definition non_space_run (x : string) : Prop :=
  x <> "" /\ all_chars Js.non_space x = true.

(** The email pattern in words: somewhere in the string there is
    [<non-space>+ @ <non-space>+ . <non-space>+]. *)
Definition has_email_shape (s : string) : Prop :=
  exists pre x y z post,
    s = pre +:+ x +:+ "@" +:+ y +:+ "." +:+ z +:+ post
    /\ non_space_run x /\ non_space_run y /\ non_space_run z.

(** [term] occurs in [label] up to the case of the letters. *)
Definition contains_ignoring_case (label term : string) : Prop :=
  exists pre mid post,
    label = pre +:+ mid +:+ post /\ Js.toLowerCase mid = Js.toLowerCase term.

(** [kept] is [l] with exactly the entries satisfying [P] retained, in the
    order of [l]. *)
Inductive keeps_matching {A} (P : A -> Prop) : list A -> list A -> Prop :=
| keeps_nil : keeps_matching P [] []
| keeps_keep x l kept :
    P x -> keeps_matching P l kept -> keeps_matching P (x :: l) (x :: kept)
| keeps_drop x l kept :
    ~ P x -> keeps_matching P l kept -> keeps_matching P (x :: l) kept.

(** What a change event is said to store: the checked flag when the event
    is checkbox-shaped and carries one, its value otherwise. *)
Definition routed_value (t : Event.Target) : Js.Value :=
  match Event.checked t with
  | Some b =>
      if decide (Event.type t = Some "checkbox") then Js.VBoolean b
      else Event.value t
  | None => Event.value t
  end.

(** "A change event with a defined name stores under that name." *)
Definition stores_under_defined_name (st : LoginSystem.State)
    (t : Event.Target) : Prop :=
  forall n, Event.name t = Some n ->
    LoginSystem.formData (LoginSystem.handleChange st t)
    = <[n := routed_value t]> (LoginSystem.formData st).

(** "A change event on a field with an error entry removes that key." *)
Definition removes_error_key (st : LoginSystem.State)
    (t : Event.Target) : Prop :=
  forall n, Event.name t = Some n ->
    is_Some (LoginSystem.errors st !! n) ->
    LoginSystem.errors (LoginSystem.handleChange st t)
    = delete n (LoginSystem.errors st).

(** "The transition leaves no error behind." *)
Definition transition_clears_errors (tr : LoginSystem.Transition)
    (st : LoginSystem.State) : Prop :=
  LoginSystem.formType st = LoginSystem.source tr ->
  LoginSystem.errors (LoginSystem.transition tr st) = ∅.

(* ===================================================================== *)
(** ** Concrete page states and events                                    *)
(* ===================================================================== *)

Module Scenario.
Import LoginSystem.

Definition text_input (name : string) (type : string) (value : string)
    : Event.Target :=
  {| Event.name := Some name; Event.value := Js.VString value;
     Event.type := Some type; Event.checked := Some false |}.

(** The fresh login page, submitted with every field empty. *)
Definition after_failed_login : State := (submit init).1.

(** The user then types an address into the email field. *)
Definition edit_email : Event.Target :=
  text_input "email" "email" "user@example.com".

(** A change event of a text input rendered without a [name] prop: the
    DOM reports the empty string. *)
Definition unnamed_edit : Event.Target := text_input "" "text" "x".

(** The orchestrator's submit handler on the fresh page. *)
Definition handleSubmit_init : Form.FormEvent -> State * list Effect :=
  handleSubmit init.

(** The register form filled in as far as the password rules go. *)
Definition register_data (password confirmPassword : string)
    : gmap string Js.Value :=
  <["password" := Js.VString password]>
    (<["confirmPassword" := Js.VString confirmPassword]> initial_formData).

End Scenario.

(* ===================================================================== *)
(** ** The remaining controls and the rendered page                       *)
(* ===================================================================== *)

Global Instance Option_eq_dec : EqDecision Option.
Proof. solve_decision. Defined.

Module Input.

(** [{error && <p>{error}</p>}], with [error = ''] when the prop is
    [undefined]: the message a control shows under itself. Input, Select,
    Textarea, RadioGroup and CheckboxGroup share the idiom. *)
Definition shown_error (error : option string) : option string :=
  match error with
  | Some msg => if bool_decide (msg = "") then None else Some msg
  | None => None
  end.

(** The [name] a native element reports when the prop is missing. *)
Definition dom_name (name : option string) : option string :=
  Some (default "" name).

End Input.

Module RadioGroup.

(** One radio per option, [checked={value === option.value}]. *)
Definition rendered (options : list Option) (value : Js.Value)
    : list (Option * bool) :=
  List.map
    (fun option => (option, Js.strict_equal value (Js.VString (opt_value option))))
    options.

(** The native change event of the radio of [option] when it is chosen. *)
Definition pick (name : option string) (option : Option) : Event.Target :=
  {| Event.name := Input.dom_name name;
     Event.value := Js.VString (opt_value option);
     Event.type := Some "radio"; Event.checked := Some true |}.

End RadioGroup.

Module Popover.

(** [onClick={() => setIsOpen(!isOpen)}] of the Select button. *)
Definition button_onClick (st : Select.State) : Select.State :=
  {| Select.isOpen := negb (Select.isOpen st);
     Select.searchTerm := Select.searchTerm st |}.

(** [onChange={(e) => setSearchTerm(e.target.value)}] of the search box. *)
Definition search_onChange (v : string) (st : Select.State) : Select.State :=
  {| Select.isOpen := Select.isOpen st; Select.searchTerm := v |}.

(** [handleClickOutside]: [mounted] says [selectRef.current] is set,
    [inside] is [selectRef.current.contains(event.target)]. *)
Definition handleClickOutside (mounted inside : bool) (st : Select.State)
    : Select.State :=
  if mounted && negb inside then
    {| Select.isOpen := false; Select.searchTerm := Select.searchTerm st |}
  else st.

(** [options.find(opt => opt.value === value)] *)
Definition selectedOption (options : list Option) (value : Js.Value)
    : option Option :=
  List.find
    (fun opt => Js.strict_equal (Js.VString (opt_value opt)) value) options.

(** [selectedOption ? selectedOption.label : placeholder] *)
Definition button_text (placeholder : string) (options : list Option)
    (value : Js.Value) : string :=
  match selectedOption options value with
  | Some o => opt_label o
  | None => placeholder
  end.

End Popover.

Module Page.
Import LoginSystem.

Definition genderOptions : list Option :=
  [ {| opt_value := "male"; opt_label := "Male" |};
    {| opt_value := "female"; opt_label := "Female" |};
    {| opt_value := "other"; opt_label := "Other" |};
    {| opt_value := "prefer-not-to-say"; opt_label := "Prefer not to say" |} ].

Definition marketingOptions : list Option :=
  [ {| opt_value := "email"; opt_label := "Email newsletters" |};
    {| opt_value := "sms"; opt_label := "SMS notifications" |};
    {| opt_value := "none"; opt_label := "No marketing" |} ].

Definition values (options : list Option) : list string :=
  List.map opt_value options.

(** What the user can do to the controls of the form. *)
Inductive Gesture :=
| TypeEmail (v : string)
| TypePassword (v : string)
| TypeConfirmPassword (v : string)
| TypeName (v : string)
| PickGender (o : Option)
| PickRole (o : Option)
| ToggleInterest (o : Option)
| PickMarketing (o : Option)
| TypeBio (v : string)
| ClickAcceptTerms
| ClickRememberMe.

(** The conditional rendering of the controls: email always, password
    unless [forgot], the remember-me switch on [login], the rest on
    [register]. *)
Definition rendered_in (g : Gesture) (ft : FormType) : bool :=
  match g with
  | TypeEmail _ => true
  | TypePassword _ => negb (bool_decide (ft = forgot))
  | ClickRememberMe => bool_decide (ft = login)
  | _ => bool_decide (ft = register)
  end.

(** A choice control only offers the options it was given. *)
Definition offered (g : Gesture) : bool :=
  match g with
  | PickGender o => bool_decide (o ∈ genderOptions)
  | PickRole o => bool_decide (o ∈ roleOptions)
  | ToggleInterest o => bool_decide (o ∈ interestOptions)
  | PickMarketing o => bool_decide (o ∈ marketingOptions)
  | _ => true
  end.

(** The change event a gesture makes its control emit, as the control is
    wired in the JSX. The Checkbox Group is given [formData.interests] as its
    array of selected values; only an array is modelled there (the page never
    stores anything else under that name). *)
Definition change_event (st : State) (g : Gesture) : option Event.Target :=
  if rendered_in g (formType st) && offered g then
    match g with
    | TypeEmail v => Some (Scenario.text_input "email" "email" v)
    | TypePassword v => Some (Scenario.text_input "password" "password" v)
    | TypeConfirmPassword v =>
        Some (Scenario.text_input "confirmPassword" "password" v)
    | TypeName v => Some (Scenario.text_input "name" "text" v)
    | PickGender o => Some (RadioGroup.pick (Some "gender") o)
    | PickRole o =>
        fst <$> Select.row_onClick (Some "role") Select.init (Select.OptionRow o)
    | ToggleInterest o =>
        match Js.get (formData st) "interests" with
        | Js.VArray l =>
            Some (CheckboxGroup.toggle (Some "interests") l (opt_value o))
        | _ => None
        end
    | PickMarketing o => Some (RadioGroup.pick (Some "marketingPreferences") o)
    | TypeBio v =>
        Some {| Event.name := Some "bio"; Event.value := Js.VString v;
                Event.type := Some "textarea"; Event.checked := None |}
    | ClickAcceptTerms =>
        Some {| Event.name := Some "acceptTerms"; Event.value := Js.VString "on";
                Event.type := Some "checkbox";
                Event.checked :=
                  Some (negb (Js.truthy (Js.get (formData st) "acceptTerms"))) |}
    | ClickRememberMe =>
        Some (Toggle.handleToggle (Some "rememberMe")
                (Js.truthy (Js.get (formData st) "rememberMe")))
    end
  else None.

Inductive UserAction :=
| Edit (g : Gesture)
| PressSubmit
| ForgotPasswordLink
| SignUpLink
| SignInLink
| BackToLoginLink.

Definition page_step (st : State) (u : UserAction) : State :=
  match u with
  | Edit g =>
      match change_event st g with
      | Some t => step st (Change t)
      | None => st
      end
  | PressSubmit => step st Submit
  | ForgotPasswordLink => step st ClickForgotPassword
  | SignUpLink => step st ClickSignUp
  | SignInLink => step st ClickSignIn
  | BackToLoginLink => step st ClickBackToLogin
  end.

(** The page after a session of user actions, from the mount. *)
Definition run (session : list UserAction) : State :=
  foldl page_step init session.

(** The fields of [interface FormData]. *)
Definition field_names : list string :=
  ["email"; "password"; "confirmPassword"; "name"; "gender"; "role";
   "rememberMe"; "acceptTerms"; "bio"; "interests"; "marketingPreferences"].

(** The names [validateForm] can report. *)
Definition validated_fields : list string :=
  ["email"; "password"; "confirmPassword"; "name"; "gender"; "acceptTerms"].

Definition text_fields : list string :=
  ["email"; "password"; "confirmPassword"; "name"; "bio"].

(** The shape [interface FormData] promises for the field [k]. *)
Definition field_type (k : string) (v : Js.Value) : Prop :=
  match v with
  | Js.VString s =>
      k ∈ text_fields
      \/ (k = "gender" /\ (s = "" \/ s ∈ values genderOptions))
      \/ (k = "role" /\ s ∈ values roleOptions)
      \/ (k = "marketingPreferences"
          /\ (s = "" \/ s ∈ values marketingOptions))
  | Js.VBoolean _ => k = "rememberMe" \/ k = "acceptTerms"
  | Js.VArray l => k = "interests" /\ NoDup l /\ l ⊆ values interestOptions
  | Js.VUndefined => False
  end.

(** Sample contents of the value record. *)
Definition login_data : gmap string Js.Value :=
  <["email" := Js.VString "a@b.c"]> (Scenario.register_data "secret" "").

Definition filled_register_data : gmap string Js.Value :=
  <["email" := Js.VString "a@b.c"]>
    (<["name" := Js.VString "Ann"]>
       (<["gender" := Js.VString "other"]>
          (<["acceptTerms" := Js.VBoolean true]>
             (Scenario.register_data "longenough1" "longenough1")))).

(** The names [validateForm] looks at in each mode. *)
Definition reportable (ft : FormType) : list string :=
  match ft with
  | forgot => ["email"]
  | login => ["email"; "password"]
  | register => validated_fields
  end.

(** The value record has exactly the eleven fields it was created with,
    each of its declared shape. *)
Definition conforms (fd : gmap string Js.Value) : Prop :=
  dom fd = dom initial_formData
  /\ forall k v, fd !! k = Some v -> field_type k v.

End Page.

(* ===================================================================== *)
(** ** Facts about strings                                                *)
(* ===================================================================== *)

Section StringFacts.

Lemma app_cons c (s t : string) : String c s +:+ t = String c (s +:+ t).
Proof. reflexivity. Qed.

Lemma app_empty_l (s : string) : "" +:+ s = s.
Proof. reflexivity. Qed.

Lemma app_empty_r (s : string) : s +:+ "" = s.
Proof. induction s as [|c s IH]; [done|]. by rewrite app_cons, IH. Qed.

Lemma app_assoc_str (s1 s2 s3 : string) :
  (s1 +:+ s2) +:+ s3 = s1 +:+ s2 +:+ s3.
Proof.
  induction s1 as [|c s1 IH]; [done|]. by rewrite !app_cons, IH.
Qed.

Lemma app_eq_empty (s1 s2 : string) : s1 +:+ s2 = "" -> s1 = "" /\ s2 = "".
Proof. destruct s1 as [|c s1]; [by intros H | by rewrite app_cons]. Qed.

Lemma startsWith_spec (s t : string) :
  Js.startsWith s t = true <-> exists post, s = t +:+ post.
Proof.
  revert s. induction t as [|b t IH]; intros s; simpl.
  - split; [intros _; by exists s | done].
  - destruct s as [|a s].
    + split; [done | intros [post H]; by rewrite app_cons in H].
    + rewrite andb_true_iff, bool_decide_eq_true, IH. split.
      * intros [-> [post ->]]. by exists post.
      * intros [post H]. rewrite app_cons in H. injection H as -> ->. eauto.
Qed.

Lemma includes_spec (s t : string) :
  Js.includes s t = true <-> exists pre post, s = pre +:+ t +:+ post.
Proof.
  induction s as [|a s IH]; simpl; rewrite orb_true_iff, startsWith_spec.
  - split.
    + intros [[post H] | ?]; [|done]. by exists "", post.
    + intros (pre & post & H). left. symmetry in H.
      apply app_eq_empty in H as [-> H]. by exists post.
  - rewrite IH. split.
    + intros [[post H] | (pre & post & ->)].
      * by exists "", post.
      * by exists (String a pre), post.
    + intros ([|c pre] & post & H).
      * left. by exists post.
      * right. rewrite app_cons in H. injection H as -> ->. eauto.
Qed.

Lemma toLowerCase_app (s1 s2 : string) :
  Js.toLowerCase (s1 +:+ s2) = Js.toLowerCase s1 +:+ Js.toLowerCase s2.
Proof.
  induction s1 as [|c s1 IH]; [done|].
  rewrite app_cons. simpl. by rewrite IH, app_cons.
Qed.

Lemma toLowerCase_app_inv (s a b : string) :
  Js.toLowerCase s = a +:+ b ->
  exists s1 s2, s = s1 +:+ s2 /\ Js.toLowerCase s1 = a /\ Js.toLowerCase s2 = b.
Proof.
  revert s. induction a as [|c a IH]; intros s H.
  - by exists "", s.
  - destruct s as [|d s]; [done|]. rewrite app_cons in H. simpl in H.
    injection H as Hc H. destruct (IH _ H) as (s1 & s2 & -> & <- & <-).
    exists (String d s1), s2. by rewrite <- Hc.
Qed.

(** The case-insensitive reading and the code's lowercase-both reading
    of "contains" agree. *)
Lemma contains_ignoring_case_spec (label term : string) :
  Js.includes (Js.toLowerCase label) (Js.toLowerCase term) = true
  <-> contains_ignoring_case label term.
Proof.
  rewrite includes_spec. split.
  - intros (pre & post & H).
    apply toLowerCase_app_inv in H as (s1 & s23 & -> & _ & H).
    apply toLowerCase_app_inv in H as (s2 & s3 & -> & H & _).
    by exists s1, s2, s3.
  - intros (pre & mid & post & -> & H).
    exists (Js.toLowerCase pre), (Js.toLowerCase post).
    by rewrite !toLowerCase_app, H.
Qed.

End StringFacts.

(* ===================================================================== *)
(** ** The matcher agrees with the language of the pattern                *)
(* ===================================================================== *)

Section RegexFacts.

Lemma lang_cat_iff r1 r2 s :
  lang (Js.Cat r1 r2) s <->
  exists s1 s2, s = s1 +:+ s2 /\ lang r1 s1 /\ lang r2 s2.
Proof.
  split.
  - inversion 1; subst. eauto.
  - intros (s1 & s2 & -> & H1 & H2). by constructor.
Qed.

Lemma nullable_spec r : Js.nullable r = true <-> lang r "".
Proof.
  induction r as [| |p|r1 IH1 r2 IH2|r1 IH1 r2 IH2|r IH]; simpl.
  - split; [done | inversion 1].
  - split; [constructor | done].
  - split; [done | inversion 1].
  - rewrite orb_true_iff, IH1, IH2. split.
    + intros [H|H]; [by apply lang_alt_l | by apply lang_alt_r].
    + inversion 1; subst; auto.
  - rewrite andb_true_iff, IH1, IH2, lang_cat_iff. split.
    + intros [H1 H2]. by exists "", "".
    + intros (s1 & s2 & H & H1 & H2). symmetry in H.
      by apply app_eq_empty in H as [-> ->].
  - split; [constructor | done].
Qed.

Lemma deriv_sound c r : forall s, lang (Js.deriv c r) s -> lang r (String c s).
Proof.
  induction r as [| |p|r1 IH1 r2 IH2|r1 IH1 r2 IH2|r IH]; simpl; intros s H.
  - inversion H.
  - inversion H.
  - destruct (p c) eqn:Hp; inversion H; subst. by constructor.
  - inversion H; subst; [apply lang_alt_l | apply lang_alt_r]; auto.
  - assert (Hcat : forall t, lang (Js.Cat (Js.deriv c r1) r2) t ->
                             lang (Js.Cat r1 r2) (String c t)).
    { intros t Ht. apply lang_cat_iff in Ht as (s1 & s2 & -> & H1 & H2).
      rewrite <- app_cons. constructor; auto. }
    destruct (Js.nullable r1) eqn:Hn; [|by apply Hcat].
    inversion H; subst; [by apply Hcat|].
    rewrite <- (app_empty_l (String c s)). constructor; [|by auto].
    by apply nullable_spec.
  - apply lang_cat_iff in H as (s1 & s2 & -> & H1 & H2).
    rewrite <- app_cons. constructor; auto.
Qed.

Lemma deriv_complete c r w :
  lang r w -> forall s, w = String c s -> lang (Js.deriv c r) s.
Proof.
  induction 1 as [|p d Hp|r1 r2 w H IH|r1 r2 w H IH
                 |r1 r2 s1 s2 H1 IH1 H2 IH2| |r s1 s2 H1 IH1 H2 IH2];
    intros s Heq; simpl.
  - done.
  - injection Heq as -> <-. rewrite Hp. constructor.
  - apply lang_alt_l; auto.
  - apply lang_alt_r; auto.
  - destruct s1 as [|d s1].
    + rewrite app_empty_l in Heq.
      apply nullable_spec in H1. rewrite H1. apply lang_alt_r; auto.
    + rewrite app_cons in Heq. injection Heq as -> <-.
      assert (lang (Js.Cat (Js.deriv c r1) r2) (s1 +:+ s2))
        by (constructor; auto).
      destruct (Js.nullable r1); [by apply lang_alt_l | done].
  - done.
  - destruct s1 as [|d s1].
    + rewrite app_empty_l in Heq. by apply IH2.
    + rewrite app_cons in Heq. injection Heq as -> <-.
      constructor; auto.
Qed.

Lemma deriv_spec c r s : lang (Js.deriv c r) s <-> lang r (String c s).
Proof.
  split; [apply deriv_sound | intros H; by eapply deriv_complete].
Qed.

Lemma matches_prefix_spec s : forall r,
  Js.matches_prefix r s = true <->
  exists m post, s = m +:+ post /\ lang r m.
Proof.
  induction s as [|c s IH]; intros r; simpl; rewrite orb_true_iff.
  - rewrite nullable_spec. split.
    + intros [H|?]; [|done]. by exists "", "".
    + intros (m & post & H & Hm). symmetry in H.
      apply app_eq_empty in H as [-> _]. by left.
  - rewrite nullable_spec, IH. split.
    + intros [H | (m & post & -> & Hm)].
      * by exists "", (String c s).
      * exists (String c m), post. split; [done|]. by apply deriv_spec.
    + intros ([|d m] & post & H & Hm); [by left|].
      rewrite app_cons in H. injection H as <- ->.
      right. exists m, post. split; [done|]. by apply deriv_spec.
Qed.

(** [test] finds a match exactly when some substring is in the language. *)
Lemma test_spec r s :
  Js.test r s = true <->
  exists pre m post, s = pre +:+ m +:+ post /\ lang r m.
Proof.
  induction s as [|c s IH]; cbn [Js.test];
    rewrite orb_true_iff, matches_prefix_spec.
  - split.
    + intros [(m & post & H & Hm) | ?]; [|done]. by exists "", m, post.
    + intros (pre & m & post & H & Hm). left. symmetry in H.
      apply app_eq_empty in H as [-> H]. by exists m, post.
  - rewrite IH. split.
    + intros [(m & post & H & Hm) | (pre & m & post & -> & Hm)].
      * by exists "", m, post.
      * by exists (String c pre), m, post.
    + intros ([|d pre] & m & post & H & Hm).
      * left. by exists m, post.
      * right. rewrite app_cons in H. injection H as <- ->.
        by exists pre, m, post.
Qed.

Lemma lang_chr c s : lang (Js.Chr c) s <-> s = String c "".
Proof.
  unfold Js.Chr. split.
  - inversion 1 as [|p d Hd| | | | |]; subst.
    by apply bool_decide_eq_true in Hd as ->.
  - intros ->. constructor. by apply bool_decide_eq_true.
Qed.

Lemma lang_star_class p s :
  lang (Js.Star (Js.Class p)) s <-> all_chars p s = true.
Proof.
  split.
  - remember (Js.Star (Js.Class p)) as r eqn:Hr. intros H.
    induction H as [| | | | | |r s1 s2 H1 _ H2 IH2]; try done.
    injection Hr as ->. inversion H1; subst.
    rewrite app_cons, app_empty_l. simpl. rewrite andb_true_iff. auto.
  - induction s as [|c s IH]; simpl; [constructor|].
    rewrite andb_true_iff. intros [Hc Hs].
    change (String c s) with (String c "" +:+ s).
    constructor; [by constructor | auto].
Qed.

Lemma lang_plus_class p s :
  lang (Js.Plus (Js.Class p)) s <-> s <> "" /\ all_chars p s = true.
Proof.
  unfold Js.Plus. rewrite lang_cat_iff. split.
  - intros (s1 & s2 & -> & H1 & H2). inversion H1; subst.
    apply lang_star_class in H2. rewrite app_cons, app_empty_l. simpl.
    rewrite andb_true_iff. by split.
  - intros [Hne H]. destruct s as [|c s]; [done|]. simpl in H.
    apply andb_true_iff in H as [Hc Hs].
    exists (String c ""), s. split; [done|].
    split; [by constructor | by apply lang_star_class].
Qed.

(** The email pattern of [validateForm] accepts exactly the strings of
    the shape it is described by. *)
Lemma email_pattern_spec s :
  Js.test LoginSystem.email_pattern s = true <-> has_email_shape s.
Proof.
  rewrite test_spec. unfold LoginSystem.email_pattern, has_email_shape,
    non_space_run. split.
  - intros (pre & m & post & -> & Hm).
    apply lang_cat_iff in Hm as (x & m1 & -> & Hx & Hm).
    apply lang_cat_iff in Hm as (a & m2 & -> & Ha & Hm).
    apply lang_cat_iff in Hm as (y & m3 & -> & Hy & Hm).
    apply lang_cat_iff in Hm as (d & z & -> & Hd & Hz).
    apply lang_chr in Ha as ->. apply lang_chr in Hd as ->.
    apply lang_plus_class in Hx, Hy, Hz.
    exists pre, x, y, z, post. by rewrite !app_assoc_str.
  - intros (pre & x & y & z & post & -> & Hx & Hy & Hz).
    exists pre, (x +:+ "@" +:+ y +:+ "." +:+ z), post.
    split; [by rewrite !app_assoc_str|].
    repeat (apply lang_cat_iff; eexists _, _; split; [reflexivity|split]);
      try (by apply lang_plus_class); by apply lang_chr.
Qed.

End RegexFacts.

(* ===================================================================== *)
(** ** What [validateForm] leaves under each key                          *)
(* ===================================================================== *)

Section ValidateFacts.
Import LoginSystem.

Lemma lookup_if_insert_ne {V} (b : bool) (k k' : string) (v : V)
    (m : gmap string V) :
  k' <> k -> (if b then <[k' := v]> m else m) !! k = m !! k.
Proof. intros ?. destruct b; [by apply lookup_insert_ne | done]. Qed.

Lemma lookup_if2_insert_ne {V} (b1 b2 : bool) (k k' : string) (v1 v2 : V)
    (m : gmap string V) :
  k' <> k ->
  (if b1 then <[k' := v1]> m else if b2 then <[k' := v2]> m else m) !! k
  = m !! k.
Proof.
  intros ?. destruct b1, b2; rewrite ?lookup_insert_ne; done.
Qed.

Lemma lookup_if_insert_eq {V} (b : bool) (k : string) (v : V)
    (m : gmap string V) :
  (if b then <[k := v]> m else m) !! k = if b then Some v else m !! k.
Proof. destruct b; [by apply lookup_insert_eq | done]. Qed.

Lemma lookup_if2_insert_eq {V} (b1 b2 : bool) (k : string) (v1 v2 : V)
    (m : gmap string V) :
  (if b1 then <[k := v1]> m else if b2 then <[k := v2]> m else m) !! k
  = if b1 then Some v1 else if b2 then Some v2 else m !! k.
Proof. destruct b1, b2; rewrite ?lookup_insert_eq; done. Qed.

Ltac validate_lookup :=
  unfold validateForm; cbv zeta; cbn [fst];
  repeat first
    [ rewrite lookup_if_insert_ne by done
    | rewrite lookup_if2_insert_ne by done
    | rewrite lookup_if_insert_eq
    | rewrite lookup_if2_insert_eq ];
  rewrite ?lookup_empty.

Lemma validateForm_email ft fd :
  (validateForm ft fd).1 !! "email" =
    if negb (Js.truthy (Js.get fd "email")) then Some "Email is required"
    else if negb (Js.test email_pattern (Js.ToString (Js.get fd "email")))
    then Some "Email is invalid" else None.
Proof. by validate_lookup. Qed.

Lemma validateForm_password ft fd :
  (validateForm ft fd).1 !! "password" =
    if negb (bool_decide (ft = forgot))
       && negb (Js.truthy (Js.get fd "password"))
    then Some "Password is required"
    else if bool_decide (ft = register)
            && Js.length_lt (Js.get fd "password") 8
    then Some "Password must be at least 8 characters" else None.
Proof. by validate_lookup. Qed.

Lemma validateForm_confirmPassword ft fd :
  (validateForm ft fd).1 !! "confirmPassword" =
    if bool_decide (ft = register)
       && negb (Js.strict_equal (Js.get fd "password")
                                (Js.get fd "confirmPassword"))
    then Some "Passwords do not match" else None.
Proof. by validate_lookup. Qed.

Lemma validateForm_name ft fd :
  (validateForm ft fd).1 !! "name" =
    if bool_decide (ft = register) && negb (Js.truthy (Js.get fd "name"))
    then Some "Name is required" else None.
Proof. by validate_lookup. Qed.

Lemma validateForm_gender ft fd :
  (validateForm ft fd).1 !! "gender" =
    if bool_decide (ft = register) && negb (Js.truthy (Js.get fd "gender"))
    then Some "Gender is required" else None.
Proof. by validate_lookup. Qed.

Lemma validateForm_acceptTerms ft fd :
  (validateForm ft fd).1 !! "acceptTerms" =
    if bool_decide (ft = register)
       && negb (Js.truthy (Js.get fd "acceptTerms"))
    then Some "You must accept the terms" else None.
Proof. by validate_lookup. Qed.

(** The [.length] of the password is only read where the password is
    truthy, so the property access never meets [undefined]. *)
Lemma validateForm_length_guard ft fd :
  negb (bool_decide (ft = forgot)) && negb (Js.truthy (Js.get fd "password"))
    = false ->
  ft = register ->
  Js.get fd "password" <> Js.VUndefined.
Proof.
  intros H -> Hu. rewrite Hu in H. vm_compute in H. discriminate H.
Qed.

Lemma Object_keys_length {V} (m : gmap string V) :
  length (Js.Object_keys m) = size m.
Proof. unfold Js.Object_keys. by rewrite length_fmap, length_map_to_list. Qed.

Lemma Object_keys_empty_iff {V} (m : gmap string V) :
  bool_decide (length (Js.Object_keys m) = 0%nat) = true <-> m = ∅.
Proof.
  rewrite bool_decide_eq_true, Object_keys_length. apply map_size_empty_iff.
Qed.

(** The returned flag says the fresh error map is empty. *)
Lemma validateForm_ok ft fd :
  (validateForm ft fd).2 = true <-> (validateForm ft fd).1 = ∅.
Proof. unfold validateForm; cbv zeta; cbn [fst snd]. apply Object_keys_empty_iff. Qed.

Lemma isFormValid_spec st : isFormValid st = true <-> errors st = ∅.
Proof. apply Object_keys_empty_iff. Qed.

Lemma get_lookup (fd : gmap string Js.Value) k v :
  fd !! k = Some v -> Js.get fd k = v.
Proof. unfold Js.get. by intros ->. Qed.

End ValidateFacts.

(* ===================================================================== *)
(** ** The change handler and the error map                               *)
(* ===================================================================== *)

Section ChangeFacts.
Import LoginSystem.

Lemma handleChange_formType st t : formType (handleChange st t) = formType st.
Proof.
  unfold handleChange. destruct (Event.name t) as [n|]; [|done].
  by destruct (negb _).
Qed.

(** What the handler does to the error map: nothing, or an empty message
    written under the event's name. *)
Lemma handleChange_errors st t :
  errors (handleChange st t) = errors st \/
  exists n, Event.name t = Some n /\ has_error (errors st) n = true
            /\ errors (handleChange st t) = <[n := ""]> (errors st).
Proof.
  unfold handleChange. destruct (Event.name t) as [n|]; [|by left].
  destruct (negb _); [|by left]. simpl.
  destruct (has_error (errors st) n) eqn:He; [right; eauto | by left].
Qed.

(** The handler never removes a key of the error map. *)
Lemma handleChange_errors_dom st t :
  dom (errors st) ⊆ dom (errors (handleChange st t)).
Proof.
  destruct (handleChange_errors st t) as [-> | (n & _ & _ & ->)]; [done|].
  rewrite dom_insert_L. set_solver.
Qed.

Lemma foldl_handleChange_errors_dom ts : forall st,
  dom (errors st) ⊆ dom (errors (foldl handleChange st ts)).
Proof.
  induction ts as [|t ts IH]; intros st; simpl; [done|].
  etrans; [apply handleChange_errors_dom | apply IH].
Qed.

Lemma isFormValid_false st : isFormValid st = false <-> errors st <> ∅.
Proof.
  rewrite <- isFormValid_spec. by destruct (isFormValid st).
Qed.

Lemma keys_nonempty {V} (m : gmap string V) :
  (0 < length (Js.Object_keys m))%nat <-> m <> ∅.
Proof.
  rewrite Object_keys_length, <- map_size_non_empty_iff. lia.
Qed.

(** The three links that reset the error map. *)
Lemma resetting_transitions tr st :
  tr <> LoginToForgot -> errors (transition tr st) = ∅.
Proof. by destruct tr. Qed.

End ChangeFacts.

(* ===================================================================== *)
(** ** Properties of the page                                             *)
(* ===================================================================== *)

Import LoginSystem.

(** C1. On the login page submitted empty, both [email] and [password] carry
    an error. Typing into the email field then does not remove the [email]
    key from the error map: the handler writes the empty string under it, the
    map keeps its two keys, and the derived validity flag stays false. The
    map does not shrink by that key. *)
Theorem edit_keeps_error_key :
  let st := Scenario.after_failed_login in
  let st' := handleChange st Scenario.edit_email in
  errors st !! "email" = Some "Email is required"
  /\ errors st' !! "email" = Some ""
  /\ errors st' = <["email" := ""]> (errors st)
  /\ size (errors st') = size (errors st)
  /\ isFormValid st' = false
  /\ ~ removes_error_key st Scenario.edit_email.
Proof.
  cbv zeta. do 5 (split; [vm_compute; reflexivity|]).
  intros H. specialize (H "email" eq_refl (ex_intro _ _ eq_refl)).
  apply (f_equal (fun m => m !! "email")) in H.
  rewrite lookup_delete_eq in H. vm_compute in H. discriminate H.
Qed.

(** C2. The "Forgot your password?" link changes the mode from Login to
    ForgotPassword and leaves the error map as it was: after a failed login
    the errors of the login form are still there in the first state of the
    forgot-password form, where the other three links empty the map. *)
Theorem forgot_link_keeps_errors :
  let st := Scenario.after_failed_login in
  let st' := transition LoginToForgot st in
  formType st = login
  /\ formType st' = forgot
  /\ errors st' = errors st
  /\ errors st' !! "email" = Some "Email is required"
  /\ ~ transition_clears_errors LoginToForgot st
  /\ (forall tr s, tr <> LoginToForgot -> transition_clears_errors tr s).
Proof.
  cbv zeta. do 4 (split; [vm_compute; reflexivity|]). split.
  - intros H. specialize (H eq_refl).
    apply (f_equal (fun m => m !! "email")) in H.
    vm_compute in H. discriminate H.
  - intros tr s Hne _. by apply resetting_transitions.
Qed.

(** C3. Once the error map has a key, change events alone never make the
    page valid again: every key stays (the handler overwrites the message
    with the empty string, it never deletes), so [isFormValid] is false, the
    submit button is disabled and the [Form] wrapper does not call the submit
    handler; the links that reset the map make the page valid again. *)
Theorem change_events_never_restore_validity
    (st : State) (changes : list Event.Target) :
  (0 < length (Js.Object_keys (errors st)))%nat ->
  let st' := foldl handleChange st changes in
  dom (errors st) ⊆ dom (errors st')
  /\ isFormValid st' = false
  /\ submit_disabled st' = true
  /\ (forall A (onSubmit : Form.FormEvent -> A) e,
        (Form.handleSubmit (Some (isFormValid st')) (Some onSubmit) e).2 = None)
  /\ submit st' = (st', None)
  /\ isFormValid (signUp_onClick st') = true
  /\ isFormValid (signIn_onClick st') = true
  /\ isFormValid (backToLogin_onClick st') = true.
Proof.
  intros Hkeys st'.
  assert (Hdom : dom (errors st) ⊆ dom (errors st'))
    by apply foldl_handleChange_errors_dom.
  assert (Hinv : isFormValid st' = false).
  { apply isFormValid_false. intros Hempty.
    apply keys_nonempty in Hkeys. apply Hkeys.
    apply dom_empty_iff_L. rewrite Hempty, dom_empty_L in Hdom. set_solver. }
  split; [done|]. split; [done|].
  split; [unfold submit_disabled; by rewrite Hinv|].
  split; [intros A f e; by rewrite Hinv|].
  split; [unfold submit; by rewrite Hinv|].
  repeat split; by apply isFormValid_spec.
Qed.

(** X9. The same holds along any mix of change events, submit gestures and
    clicks on "Forgot your password?": once the error map has a key, none of
    them makes the page valid again. *)
Lemma gated_actions_keep_invalid (acts : list Action) : forall st,
  errors st <> ∅ ->
  Forall (fun a => match a with
                   | Change _ | Submit | ClickForgotPassword => True
                   | _ => False
                   end) acts ->
  isFormValid (foldl step st acts) = false.
Proof.
  induction acts as [|a acts IH]; intros st Hne Hall; simpl.
  - by apply isFormValid_false.
  - apply Forall_cons in Hall as [Ha Hall]. apply IH; [|done].
    unfold step. destruct (rendered st a); [|done].
    destruct a as [t| | | | |]; try done.
    + intros Hempty. apply Hne. apply dom_empty_iff_L.
      pose proof (handleChange_errors_dom st t) as Hdom.
      rewrite Hempty, dom_empty_L in Hdom. set_solver.
    + unfold submit.
      by rewrite (proj2 (isFormValid_false st) Hne).
Qed.

(** A well-formed login, submitted from the fresh page, reaches the
    placeholder submit action. *)
Example login_succeeds :
  let st := foldl step init
              [ Change Scenario.edit_email;
                Change (Scenario.text_input "password" "password" "secret") ] in
  (submit st).2
  = Some [ ConsoleLog "Form submitted:" (formData st);
           Alert "Login successful!" ].
Proof. vm_compute. reflexivity. Qed.

Lemma change_events_never_restore_validity_witness :
  (0 < length (Js.Object_keys (errors Scenario.after_failed_login)))%nat
  /\ isFormValid
       (foldl handleChange Scenario.after_failed_login
          [Scenario.edit_email;
           Scenario.text_input "password" "password" "longenough1"])
     = false.
Proof.
  assert (H : (0 < length (Js.Object_keys (errors Scenario.after_failed_login)))%nat)
    by (vm_compute; lia).
  split; [exact H|].
  exact (proj1 (proj2 (change_events_never_restore_validity
    Scenario.after_failed_login
    [Scenario.edit_email;
     Scenario.text_input "password" "password" "longenough1"] H))).
Defined.

(** C4. In every mode, validation of an empty email string leaves
    "Email is required" under [email]; for a non-empty email it leaves
    "Email is invalid" exactly when the email has no part of the shape
    [<non-space>+ @ <non-space>+ . <non-space>+], and no email error when it
    has one. *)
Theorem validateForm_email_rule
    (ft : FormType) (fd : gmap string Js.Value) (s : string) :
  fd !! "email" = Some (Js.VString s) ->
  let email_error := (validateForm ft fd).1 !! "email" in
  (s = "" -> email_error = Some "Email is required")
  /\ (s <> "" ->
        (email_error = Some "Email is invalid" <-> ~ has_email_shape s)
        /\ (email_error = None <-> has_email_shape s)).
Proof.
  intros Hfd email_error. subst email_error.
  rewrite validateForm_email, (get_lookup _ _ _ Hfd). simpl.
  split.
  - intros ->. reflexivity.
  - intros Hs. rewrite (bool_decide_eq_false_2 _ Hs). simpl.
    destruct (Js.test email_pattern s) eqn:Ht; simpl.
    + apply email_pattern_spec in Ht. intuition congruence.
    + assert (~ has_email_shape s) as Hn.
      { intros H. apply email_pattern_spec in H. congruence. }
      intuition congruence.
Qed.

Lemma validateForm_email_rule_witness :
  Scenario.register_data "" "" !! "email" = Some (Js.VString "")
  /\ (validateForm forgot (Scenario.register_data "" "")).1 !! "email"
     = Some "Email is required".
Proof.
  assert (H : Scenario.register_data "" "" !! "email" = Some (Js.VString ""))
    by (vm_compute; reflexivity).
  split; [exact H|].
  exact (proj1 (validateForm_email_rule forgot _ "" H) eq_refl).
Defined.

(** C5. The password rule: in Login and Register mode an empty password
    gets "Password is required" (in Register mode too: the length check does
    not replace it); in Register mode a non-empty password of fewer than 8
    characters gets the length message; in ForgotPassword mode the password
    gets no error whatever it holds; a non-empty password of 8 characters or
    more gets no error in any mode. *)
Theorem validateForm_password_rule
    (ft : FormType) (fd : gmap string Js.Value) (s : string) :
  fd !! "password" = Some (Js.VString s) ->
  let password_error := (validateForm ft fd).1 !! "password" in
  (ft <> forgot -> s = "" -> password_error = Some "Password is required")
  /\ (ft = register -> s <> "" -> (String.length s < 8)%nat ->
        password_error = Some "Password must be at least 8 characters")
  /\ (ft = forgot -> password_error = None)
  /\ (s <> "" -> (8 <= String.length s)%nat -> password_error = None).
Proof.
  intros Hfd password_error. subst password_error.
  rewrite validateForm_password, (get_lookup _ _ _ Hfd).
  unfold Js.length_lt. simpl.
  repeat split.
  - intros Hft ->. by rewrite (bool_decide_eq_false_2 _ Hft).
  - intros -> Hs Hlen.
    by rewrite (bool_decide_eq_false_2 _ Hs), (bool_decide_eq_true_2 _ Hlen).
  - by intros ->.
  - intros Hs Hlen. rewrite (bool_decide_eq_false_2 _ Hs).
    rewrite (bool_decide_eq_false_2 (String.length s < 8)%nat) by lia.
    simpl. by rewrite !andb_false_r.
Qed.

Lemma validateForm_password_rule_witness :
  Scenario.register_data "short1" "short1" !! "password"
    = Some (Js.VString "short1")
  /\ (validateForm register (Scenario.register_data "short1" "short1")).1
       !! "password"
     = Some "Password must be at least 8 characters".
Proof.
  assert (H : Scenario.register_data "short1" "short1" !! "password"
              = Some (Js.VString "short1")) by (vm_compute; reflexivity).
  split; [exact H|].
  apply (proj1 (proj2 (validateForm_password_rule register _ "short1" H)));
    [reflexivity | discriminate | simpl; lia].
Defined.

(** The password of ForgotPassword mode is not looked at, even when the
    field holds no string at all. *)
Lemma validateForm_password_forgot fd :
  (validateForm forgot fd).1 !! "password" = None.
Proof. by rewrite validateForm_password. Qed.

(** C6. Validation leaves "Passwords do not match" under [confirmPassword]
    exactly when the mode is Register and the two strings differ; in Login
    and ForgotPassword mode, and in Register mode with equal strings, there
    is no [confirmPassword] error. *)
Theorem validateForm_confirmPassword_rule
    (ft : FormType) (fd : gmap string Js.Value) (p c : string) :
  fd !! "password" = Some (Js.VString p) ->
  fd !! "confirmPassword" = Some (Js.VString c) ->
  let confirm_error := (validateForm ft fd).1 !! "confirmPassword" in
  (confirm_error = Some "Passwords do not match" <-> ft = register /\ p <> c)
  /\ (confirm_error = None <-> ft <> register \/ p = c).
Proof.
  intros Hp Hc confirm_error. subst confirm_error.
  rewrite validateForm_confirmPassword,
    (get_lookup _ _ _ Hp), (get_lookup _ _ _ Hc). simpl.
  destruct (decide (ft = register)) as [Hft|Hft];
  destruct (decide (p = c)) as [Hpc|Hpc];
    rewrite ?(bool_decide_eq_true_2 _ Hft), ?(bool_decide_eq_false_2 _ Hft),
            ?(bool_decide_eq_true_2 _ Hpc), ?(bool_decide_eq_false_2 _ Hpc);
    simpl; split; split; try done; try tauto; intuition congruence.
Qed.

Lemma validateForm_confirmPassword_rule_witness :
  Scenario.register_data "abc12345" "abc12346" !! "password"
    = Some (Js.VString "abc12345")
  /\ Scenario.register_data "abc12345" "abc12346" !! "confirmPassword"
    = Some (Js.VString "abc12346")
  /\ (validateForm register (Scenario.register_data "abc12345" "abc12346")).1
       !! "confirmPassword"
     = Some "Passwords do not match".
Proof.
  assert (Hp : Scenario.register_data "abc12345" "abc12346" !! "password"
               = Some (Js.VString "abc12345")) by (vm_compute; reflexivity).
  assert (Hc : Scenario.register_data "abc12345" "abc12346" !! "confirmPassword"
               = Some (Js.VString "abc12346")) by (vm_compute; reflexivity).
  split; [exact Hp|]. split; [exact Hc|].
  apply (proj1 (validateForm_confirmPassword_rule register _ _ _ Hp Hc)).
  split; [reflexivity | discriminate].
Defined.

(** C7. For every submit event and every validity flag the [Form] wrapper
    prevents the default action, and it calls the submit handler it was given
    (once, with that event) exactly when the flag is true; an omitted flag
    counts as true. Its result depends on nothing but its props and the
    event. *)
Theorem Form_handleSubmit_gate {A}
    (isValid : bool) (onSubmit : Form.FormEvent -> A) (e : Form.FormEvent) :
  let r := Form.handleSubmit (Some isValid) (Some onSubmit) e in
  Form.defaultPrevented r.1 = true
  /\ (is_Some r.2 <-> isValid = true)
  /\ (isValid = true -> r.2 = Some (onSubmit (Form.preventDefault e)))
  /\ (isValid = false -> r.2 = None)
  /\ Form.handleSubmit None (Some onSubmit) e
     = Form.handleSubmit (Some true) (Some onSubmit) e
  /\ Form.handleSubmit (Some isValid) (@None (Form.FormEvent -> A)) e
     = (Form.preventDefault e, None).
Proof.
  destruct isValid; simpl; repeat split; try done; eauto.
Qed.

Lemma Form_handleSubmit_gate_witness :
  (Form.handleSubmit (Some true) (Some Scenario.handleSubmit_init)
     {| Form.defaultPrevented := false |}).2
  = Some (Scenario.handleSubmit_init {| Form.defaultPrevented := true |}).
Proof.
  exact (proj1 (proj2 (proj2 (Form_handleSubmit_gate true Scenario.handleSubmit_init
    {| Form.defaultPrevented := false |}))) eq_refl).
Defined.

(** C8, as stated, fails for a name that is defined but empty: the handler
    tests the truthiness of [name], and the change event of a control
    rendered without a name is dropped. *)
Lemma handleChange_ignores_empty_name :
  Event.name Scenario.unnamed_edit = Some ""
  /\ handleChange init Scenario.unnamed_edit = init
  /\ ~ stores_under_defined_name init Scenario.unnamed_edit.
Proof.
  split; [reflexivity|]. split; [reflexivity|].
  intros H. specialize (H "" eq_refl).
  apply (f_equal (fun m => m !! "")) in H.
  rewrite lookup_insert_eq in H. vm_compute in H. discriminate H.
Qed.

(** C8, amended. For every change event with a defined, non-empty name the
    handler stores the boolean [checked] under that name when the type is
    "checkbox" and [checked] is defined, and [value] otherwise; every other
    field of the value map, and the mode, are unchanged. *)
Theorem handleChange_stores (st : State) (t : Event.Target) (n : string) :
  Event.name t = Some n ->
  n <> "" ->
  let st' := handleChange st t in
  formData st' = <[n := routed_value t]> (formData st)
  /\ formData st' !! n = Some (routed_value t)
  /\ (forall k, k <> n -> formData st' !! k = formData st !! k)
  /\ formType st' = formType st.
Proof.
  intros Hn Hne st'.
  assert (Hfd : formData st' = <[n := routed_value t]> (formData st)).
  { subst st'. unfold handleChange, routed_value. rewrite Hn.
    rewrite (bool_decide_eq_false_2 _ Hne). simpl. f_equal.
    destruct (Event.type t) as [ty|], (Event.checked t) as [b|]; try done.
    destruct (decide (ty = "checkbox")) as [->|Hty].
    - by rewrite decide_True.
    - rewrite (bool_decide_eq_false_2 _ Hty), decide_False; congruence. }
  split; [done|]. rewrite Hfd.
  split; [apply lookup_insert_eq|].
  split; [intros k Hk; by apply lookup_insert_ne|].
  apply handleChange_formType.
Qed.

Lemma handleChange_stores_witness :
  Event.name (Toggle.handleToggle (Some "rememberMe") false) = Some "rememberMe"
  /\ formData (handleChange init (Toggle.handleToggle (Some "rememberMe") false))
       !! "rememberMe" = Some (Js.VBoolean true).
Proof.
  split; [reflexivity|].
  apply (proj1 (proj2 (handleChange_stores init
           (Toggle.handleToggle (Some "rememberMe") false) "rememberMe"
           eq_refl ltac:(discriminate)))).
Defined.

(** An event without a usable name changes nothing at all. *)
Lemma handleChange_falsy_name st t :
  Event.name t = None \/ Event.name t = Some "" -> handleChange st t = st.
Proof. unfold handleChange. by intros [-> | ->]. Qed.

Section CheckboxGroupFacts.

Lemma filter_other (x : string) (l : list string) :
  List.filter (fun v => negb (bool_decide (v = x))) l
  = filter (fun v => v <> x) l.
Proof.
  induction l as [|a l IH]; [done|]. simpl. rewrite filter_cons, IH.
  destruct (decide (a = x)) as [->|Hne].
  - by rewrite bool_decide_eq_true_2, decide_False by auto.
  - by rewrite bool_decide_eq_false_2, decide_True.
Qed.

Lemma filter_other_absent (x : string) (l : list string) :
  x ∉ l -> filter (fun v => v <> x) l = l.
Proof.
  induction l as [|a l IH]; [done|]. intros Hx.
  apply not_elem_of_cons in Hx as [Hne Hx].
  rewrite filter_cons, decide_True by auto. by rewrite IH.
Qed.

Lemma filter_other_gone (x : string) (l : list string) :
  x ∉ filter (fun v => v <> x) l.
Proof. rewrite list_elem_of_filter. tauto. Qed.

Lemma emitted_handleChange name value checked opt :
  CheckboxGroup.emitted_values
    (CheckboxGroup.handleChange name value checked opt)
  = if checked then value ++ [opt] else filter (fun v => v <> opt) value.
Proof. destruct checked; [done | apply filter_other]. Qed.

End CheckboxGroupFacts.

(** C9. Toggling an option of the Checkbox Group emits the whole new array
    in an event typed "checkbox": checking appends the option's value,
    unchecking removes every occurrence of it and nothing else; toggling an
    option that is not selected and toggling it again gives back the array
    one started from. *)
Theorem CheckboxGroup_toggle
    (name : option string) (value : list string) (opt : string) :
  (forall checked,
      let ev := CheckboxGroup.handleChange name value checked opt in
      Event.name ev = name /\ Event.type ev = Some "checkbox"
      /\ Event.checked ev = None
      /\ Event.value ev = Js.VArray (CheckboxGroup.emitted_values ev))
  /\ CheckboxGroup.emitted_values
       (CheckboxGroup.handleChange name value true opt) = value ++ [opt]
  /\ (let l := CheckboxGroup.emitted_values
                 (CheckboxGroup.handleChange name value false opt) in
      (opt ∉ l) /\ l = filter (fun v => v <> opt) value)
  /\ (opt ∉ value ->
      let once := CheckboxGroup.emitted_values
                    (CheckboxGroup.toggle name value opt) in
      once = value ++ [opt]
      /\ CheckboxGroup.emitted_values (CheckboxGroup.toggle name once opt)
         = value)
  /\ (opt ∈ value ->
      CheckboxGroup.emitted_values (CheckboxGroup.toggle name value opt)
      = filter (fun v => v <> opt) value).
Proof.
  split; [by intros []|]. split; [done|].
  split.
  { cbv zeta. rewrite emitted_handleChange.
    split; [apply filter_other_gone | done]. }
  split.
  - intros Habs. unfold CheckboxGroup.toggle, CheckboxGroup.rendered_checked.
    rewrite (bool_decide_eq_false_2 _ Habs). cbv zeta.
    rewrite !emitted_handleChange. cbn [negb]. split; [done|].
    rewrite bool_decide_eq_true_2 by (apply elem_of_app; right; by left).
    cbn [negb]. rewrite filter_app, filter_other_absent by done.
    rewrite filter_cons, decide_False by auto. by rewrite filter_nil, app_nil_r.
  - intros Hin. unfold CheckboxGroup.toggle, CheckboxGroup.rendered_checked.
    rewrite (bool_decide_eq_true_2 _ Hin). by rewrite emitted_handleChange.
Qed.

Lemma CheckboxGroup_toggle_witness :
  ("music" ∉ ["technology"])
  /\ CheckboxGroup.emitted_values
       (CheckboxGroup.toggle (Some "interests") ["technology"] "music")
     = ["technology"; "music"]
  /\ CheckboxGroup.emitted_values
       (CheckboxGroup.toggle (Some "interests") ["technology"; "music"] "music")
     = ["technology"].
Proof.
  assert (H : "music" ∉ ["technology"]).
  { intros Hin. apply list_elem_of_In in Hin. simpl in Hin.
    destruct Hin as [Heq | []]. discriminate Heq. }
  split; [exact H|].
  exact (proj1 (proj2 (proj2 (proj2
    (CheckboxGroup_toggle (Some "interests") ["technology"] "music")))) H).
Defined.

(** The orchestrator stores the emitted array under the group's name. *)
Lemma interests_round_trip :
  let st1 := handleChange init
               (CheckboxGroup.toggle (Some "interests") [] "technology") in
  let st2 := handleChange st1
               (CheckboxGroup.toggle (Some "interests") ["technology"] "music") in
  let st3 := handleChange st2
               (CheckboxGroup.toggle (Some "interests")
                  ["technology"; "music"] "music") in
  formData st1 !! "interests" = Some (Js.VArray ["technology"])
  /\ formData st2 !! "interests" = Some (Js.VArray ["technology"; "music"])
  /\ formData st3 !! "interests" = Some (Js.VArray ["technology"]).
Proof. cbv zeta. repeat split; vm_compute; reflexivity. Qed.

Section SelectFacts.

Lemma filter_keeps_matching {A} (f : A -> bool) (P : A -> Prop) (l : list A) :
  (forall x, f x = true <-> P x) ->
  keeps_matching P l (List.filter f l).
Proof.
  intros Hf. induction l as [|x l IH]; simpl; [constructor|].
  destruct (f x) eqn:Hx.
  - apply keeps_keep; [by apply Hf | done].
  - apply keeps_drop; [|done]. rewrite <- Hf. congruence.
Qed.

(** [keeps_matching] determines the kept list. *)
Lemma keeps_matching_unique {A} (P : A -> Prop) (l k1 k2 : list A) :
  keeps_matching P l k1 -> keeps_matching P l k2 -> k1 = k2.
Proof.
  intros H1. revert k2.
  induction H1 as [|x l k Hx _ IH|x l k Hx _ IH]; intros k2 H2;
    inversion H2; subst; try done; f_equal; auto.
Qed.

End SelectFacts.

(** C10. With search enabled the Select lists exactly the options whose
    label contains the search string up to letter case, in their original
    order; when there is none it shows the single row "No options found",
    which cannot be clicked. The search "admin" on the role options leaves
    the "Administrator" entry alone. *)
Theorem Select_search_filter
    (options : list Option) (term : string)
    (name : option string) (st : Select.State) :
  let shown := Select.filteredOptions true options term in
  keeps_matching (fun o => contains_ignoring_case (opt_label o) term)
    options shown
  /\ (shown <> [] -> Select.rows shown = List.map Select.OptionRow shown)
  /\ (shown = [] ->
      Select.rows shown = [Select.NoOptionsFound]
      /\ Select.row_text Select.NoOptionsFound = "No options found"
      /\ Select.row_onClick name st Select.NoOptionsFound = None)
  /\ (forall o, is_Some (Select.row_onClick name st (Select.OptionRow o)))
  /\ Select.filteredOptions true roleOptions "admin"
     = [ {| opt_value := "admin"; opt_label := "Administrator" |} ].
Proof.
  intros shown. split.
  { apply filter_keeps_matching. intros o. apply contains_ignoring_case_spec. }
  split.
  { intros Hne. unfold Select.rows. destruct shown; [done|].
    by rewrite bool_decide_eq_true_2 by (simpl; lia). }
  split; [by intros ->|].
  split; [by eexists|]. by vm_compute.
Qed.

Lemma Select_search_filter_witness :
  Select.filteredOptions true roleOptions "xyz" = []
  /\ Select.displayed true roleOptions
       {| Select.isOpen := true; Select.searchTerm := "xyz" |}
     = [Select.NoOptionsFound].
Proof.
  assert (H : Select.filteredOptions true roleOptions "xyz" = [])
    by (vm_compute; reflexivity).
  split; [exact H|].
  exact (proj1 (proj1 (proj2 (proj2
    (Select_search_filter roleOptions "xyz" None Select.init))) H)).
Defined.

(* ===================================================================== *)
(** ** Further properties: validation                                     *)
(* ===================================================================== *)

#[local] Set Warnings "-clear-no-such-hyp".

Section ValidateMore.

Ltac lookup_through :=
  unfold validateForm; cbv zeta; cbn [fst];
  repeat first
    [ rewrite lookup_if_insert_ne by congruence
    | rewrite lookup_if2_insert_ne by congruence ];
  rewrite ?lookup_empty.

Lemma validateForm_lookup_other ft fd k :
  k ∉ Page.validated_fields -> (validateForm ft fd).1 !! k = None.
Proof.
  unfold Page.validated_fields. rewrite !not_elem_of_cons.
  intros (? & ? & ? & ? & ? & ? & _). by lookup_through.
Qed.

(** Every entry of a fresh error map, with the mode it needs. *)
Lemma validateForm_entry ft fd k msg :
  (validateForm ft fd).1 !! k = Some msg ->
  (k = "email" /\ (msg = "Email is required" \/ msg = "Email is invalid"))
  \/ (k = "password" /\ ft <> forgot
      /\ (msg = "Password is required"
          \/ (ft = register /\ msg = "Password must be at least 8 characters")))
  \/ (ft = register
      /\ ((k = "confirmPassword" /\ msg = "Passwords do not match")
          \/ (k = "name" /\ msg = "Name is required")
          \/ (k = "gender" /\ msg = "Gender is required")
          \/ (k = "acceptTerms" /\ msg = "You must accept the terms"))).
Proof.
  intros H.
  destruct (decide (k ∈ Page.validated_fields)) as [Hk|Hk];
    [|by rewrite validateForm_lookup_other in H].
  unfold Page.validated_fields in Hk.
  repeat (apply elem_of_cons in Hk as [->|Hk]); [..|by apply elem_of_nil in Hk].
  - rewrite validateForm_email in H. left.
    repeat (destruct (negb _) in H); naive_solver.
  - rewrite validateForm_password in H. right; left.
    destruct ft; simpl in H;
      repeat (destruct (negb _) in H; simpl in H);
      try destruct (Js.length_lt _ _) in H; naive_solver.
  - rewrite validateForm_confirmPassword in H.
    destruct ft; simpl in H; try done.
    destruct (negb _) in H; naive_solver.
  - rewrite validateForm_name in H.
    destruct ft; simpl in H; try done. destruct (negb _) in H; naive_solver.
  - rewrite validateForm_gender in H.
    destruct ft; simpl in H; try done. destruct (negb _) in H; naive_solver.
  - rewrite validateForm_acceptTerms in H.
    destruct ft; simpl in H; try done. destruct (negb _) in H; naive_solver.
Qed.

Lemma validateForm_empty_iff ft fd :
  (validateForm ft fd).1 = ∅
  <-> (validateForm ft fd).1 !! "email" = None
      /\ (validateForm ft fd).1 !! "password" = None
      /\ (validateForm ft fd).1 !! "confirmPassword" = None
      /\ (validateForm ft fd).1 !! "name" = None
      /\ (validateForm ft fd).1 !! "gender" = None
      /\ (validateForm ft fd).1 !! "acceptTerms" = None.
Proof.
  split.
  - intros ->. by rewrite !lookup_empty.
  - intros (? & ? & ? & ? & ? & ?). apply map_empty. intros k.
    destruct (decide (k ∈ Page.validated_fields)) as [Hk|Hk];
      [|by apply validateForm_lookup_other].
    unfold Page.validated_fields in Hk.
    repeat (apply elem_of_cons in Hk as [->|Hk]); try done.
    by apply elem_of_nil in Hk.
Qed.

End ValidateMore.

(** X1. [validateForm] reports only on the fields of the current mode: on
    [email] alone in ForgotPassword mode, on [email] and [password] in Login
    mode, on the six validated fields in Register mode. The fields role, bio,
    interests, marketingPreferences and rememberMe never get an entry. *)
Theorem validateForm_reports_mode_fields
    (ft : FormType) (fd : gmap string Js.Value) :
  dom (validateForm ft fd).1 ⊆ list_to_set (Page.reportable ft)
  /\ (forall k, k ∈ ["role"; "bio"; "interests"; "marketingPreferences";
                    "rememberMe"] ->
                (validateForm ft fd).1 !! k = None).
Proof.
  split.
  - intros k [msg Hk]%elem_of_dom. apply elem_of_list_to_set.
    apply validateForm_entry in Hk.
    destruct ft; unfold Page.reportable, Page.validated_fields;
      rewrite ?elem_of_cons; naive_solver.
  - intros k Hk. apply validateForm_lookup_other.
    unfold Page.validated_fields.
    repeat (apply elem_of_cons in Hk as [->|Hk]);
      [..|by apply elem_of_nil in Hk];
      rewrite !not_elem_of_cons; repeat split; try discriminate;
      apply not_elem_of_nil.
Qed.

Lemma validateForm_reports_mode_fields_witness :
  ("bio" ∈ ["role"; "bio"; "interests"; "marketingPreferences"; "rememberMe"])
  /\ (validateForm register initial_formData).1 !! "bio" = None.
Proof.
  assert (H : "bio" ∈ ["role"; "bio"; "interests"; "marketingPreferences";
                       "rememberMe"]) by (right; left).
  split; [exact H|].
  exact (proj2 (validateForm_reports_mode_fields register initial_formData)
           "bio" H).
Defined.

(** X2. Validation gets stricter from ForgotPassword to Login to Register:
    every error reported in a laxer mode is reported, with the same message,
    in the stricter one, so data accepted for Register are accepted for Login
    and data accepted for Login are accepted for ForgotPassword. *)
Theorem validateForm_mode_monotone (fd : gmap string Js.Value) :
  (validateForm forgot fd).1 ⊆ (validateForm login fd).1
  /\ (validateForm login fd).1 ⊆ (validateForm register fd).1
  /\ ((validateForm register fd).2 = true -> (validateForm login fd).2 = true)
  /\ ((validateForm login fd).2 = true -> (validateForm forgot fd).2 = true).
Proof.
  assert (H1 : (validateForm forgot fd).1 ⊆ (validateForm login fd).1).
  { apply map_subseteq_spec. intros k msg Hk.
    destruct (validateForm_entry _ _ _ _ Hk) as [[-> _]|[(_ & Hf & _)|[Hf _]]];
      try done.
    rewrite validateForm_email in Hk. rewrite validateForm_email. exact Hk. }
  assert (H2 : (validateForm login fd).1 ⊆ (validateForm register fd).1).
  { apply map_subseteq_spec. intros k msg Hk.
    destruct (validateForm_entry _ _ _ _ Hk)
      as [[-> _]|[(-> & _ & _)|[Hf _]]]; try done.
    - rewrite validateForm_email in Hk. rewrite validateForm_email. exact Hk.
    - rewrite validateForm_password in Hk. rewrite validateForm_password.
      destruct (Js.truthy (Js.get fd "password")); simpl in *; done. }
  split; [done|]. split; [done|].
  split; rewrite !validateForm_ok; intros Hempty.
  - apply map_empty. intros k. rewrite Hempty in H2.
    destruct (_ !! k) eqn:Hk; [|done].
    eapply lookup_weaken in Hk; [|exact H2]. by rewrite lookup_empty in Hk.
  - apply map_empty. intros k. rewrite Hempty in H1.
    destruct (_ !! k) eqn:Hk; [|done].
    eapply lookup_weaken in Hk; [|exact H1]. by rewrite lookup_empty in Hk.
Qed.

Lemma validateForm_mode_monotone_witness :
  (validateForm register Page.filled_register_data).2 = true
  /\ (validateForm login Page.filled_register_data).2 = true.
Proof.
  assert (H : (validateForm register Page.filled_register_data).2 = true)
    by (vm_compute; reflexivity).
  split; [exact H|].
  exact (proj1 (proj2 (proj2
    (validateForm_mode_monotone Page.filled_register_data))) H).
Defined.

(** X3. Every message [validateForm] leaves in the error map is a non-empty
    string, so each reported error is shown under its control and counts as
    an error for the change handler. *)
Theorem validateForm_messages_shown
    (ft : FormType) (fd : gmap string Js.Value) (k msg : string) :
  (validateForm ft fd).1 !! k = Some msg ->
  msg <> ""
  /\ Input.shown_error ((validateForm ft fd).1 !! k) = Some msg
  /\ has_error (validateForm ft fd).1 k = true.
Proof.
  intros H. assert (Hne : msg <> "")
    by (apply validateForm_entry in H; naive_solver).
  split; [done|]. unfold has_error. rewrite H. simpl.
  by rewrite (bool_decide_eq_false_2 _ Hne).
Qed.

Lemma validateForm_messages_shown_witness :
  (validateForm login initial_formData).1 !! "email" = Some "Email is required"
  /\ Input.shown_error ((validateForm login initial_formData).1 !! "email")
     = Some "Email is required".
Proof.
  assert (H : (validateForm login initial_formData).1 !! "email"
              = Some "Email is required") by (vm_compute; reflexivity).
  split; [exact H|].
  exact (proj1 (proj2 (validateForm_messages_shown login initial_formData
                         "email" "Email is required" H))).
Defined.

(** X4. Register-only required fields: [name] and [gender] get their
    "required" message exactly in Register mode with an empty string, and
    [acceptTerms] gets "You must accept the terms" exactly in Register mode
    with the box unticked; no other mode ever reports on them. *)
Theorem validateForm_register_fields
    (ft : FormType) (fd : gmap string Js.Value) (n g : string) (a : bool) :
  fd !! "name" = Some (Js.VString n) ->
  fd !! "gender" = Some (Js.VString g) ->
  fd !! "acceptTerms" = Some (Js.VBoolean a) ->
  let errs := (validateForm ft fd).1 in
  (errs !! "name" = Some "Name is required" <-> ft = register /\ n = "")
  /\ (errs !! "gender" = Some "Gender is required" <-> ft = register /\ g = "")
  /\ (errs !! "acceptTerms" = Some "You must accept the terms"
      <-> ft = register /\ a = false)
  /\ (ft <> register ->
      errs !! "name" = None /\ errs !! "gender" = None
      /\ errs !! "acceptTerms" = None).
Proof.
  intros Hn Hg Ha errs. subst errs.
  rewrite validateForm_name, validateForm_gender, validateForm_acceptTerms,
    (get_lookup _ _ _ Hn), (get_lookup _ _ _ Hg), (get_lookup _ _ _ Ha).
  simpl.
  destruct ft; simpl; destruct a; simpl;
    destruct (decide (n = "")) as [->|Hn']; destruct (decide (g = "")) as [->|Hg'];
    rewrite ?(bool_decide_eq_false_2 _ Hn'), ?(bool_decide_eq_false_2 _ Hg');
    simpl; intuition congruence.
Qed.

Lemma validateForm_register_fields_witness :
  initial_formData !! "name" = Some (Js.VString "")
  /\ initial_formData !! "gender" = Some (Js.VString "")
  /\ initial_formData !! "acceptTerms" = Some (Js.VBoolean false)
  /\ (validateForm register initial_formData).1 !! "acceptTerms"
     = Some "You must accept the terms".
Proof.
  assert (Hn : initial_formData !! "name" = Some (Js.VString ""))
    by (vm_compute; reflexivity).
  assert (Hg : initial_formData !! "gender" = Some (Js.VString ""))
    by (vm_compute; reflexivity).
  assert (Ha : initial_formData !! "acceptTerms" = Some (Js.VBoolean false))
    by (vm_compute; reflexivity).
  split; [exact Hn|]. split; [exact Hg|]. split; [exact Ha|].
  apply (proj1 (proj2 (proj2
    (validateForm_register_fields register _ _ _ _ Hn Hg Ha)))).
  split; reflexivity.
Defined.

(** X5. When the fields hold values of their declared types, validation
    passes exactly when: the email has a part of the shape
    [<non-space>+ @ <non-space>+ . <non-space>+]; outside ForgotPassword mode
    the password is not empty; and in Register mode the password has at least
    8 characters, the confirmation equals it, name and gender are not empty
    and the terms are accepted. *)
Theorem validateForm_passes_iff
    (ft : FormType) (fd : gmap string Js.Value)
    (e p c n g : string) (a : bool) :
  fd !! "email" = Some (Js.VString e) ->
  fd !! "password" = Some (Js.VString p) ->
  fd !! "confirmPassword" = Some (Js.VString c) ->
  fd !! "name" = Some (Js.VString n) ->
  fd !! "gender" = Some (Js.VString g) ->
  fd !! "acceptTerms" = Some (Js.VBoolean a) ->
  (validateForm ft fd).2 = true
  <-> has_email_shape e
      /\ (ft <> forgot -> p <> "")
      /\ (ft = register ->
          (8 <= String.length p)%nat /\ c = p /\ n <> "" /\ g <> ""
          /\ a = true).
Proof.
  intros He Hp Hc Hn Hg Ha.
  rewrite validateForm_ok, validateForm_empty_iff.
  rewrite validateForm_email, validateForm_password,
    validateForm_confirmPassword, validateForm_name, validateForm_gender,
    validateForm_acceptTerms.
  rewrite (get_lookup _ _ _ He), (get_lookup _ _ _ Hp), (get_lookup _ _ _ Hc),
    (get_lookup _ _ _ Hn), (get_lookup _ _ _ Hg), (get_lookup _ _ _ Ha).
  rewrite <- email_pattern_spec. unfold Js.length_lt. simpl.
  destruct (decide (e = "")) as [->|He'].
  { split; [by intros [? _] | intros [Ht _]; vm_compute in Ht; discriminate Ht]. }
  rewrite (bool_decide_eq_false_2 _ He'). simpl.
  destruct (Js.test email_pattern e); simpl; [|split; intros [? _]; done].
  destruct ft; simpl; repeat case_bool_decide; destruct a; simpl;
    intuition (try congruence; try lia).
Qed.

Lemma validateForm_passes_iff_witness :
  (validateForm login Page.login_data).2 = true.
Proof.
  assert (He : Page.login_data !! "email" = Some (Js.VString "a@b.c"))
    by (vm_compute; reflexivity).
  assert (Hp : Page.login_data !! "password" = Some (Js.VString "secret"))
    by (vm_compute; reflexivity).
  assert (Hc : Page.login_data !! "confirmPassword" = Some (Js.VString ""))
    by (vm_compute; reflexivity).
  assert (Hn : Page.login_data !! "name" = Some (Js.VString ""))
    by (vm_compute; reflexivity).
  assert (Hg : Page.login_data !! "gender" = Some (Js.VString ""))
    by (vm_compute; reflexivity).
  assert (Ha : Page.login_data !! "acceptTerms" = Some (Js.VBoolean false))
    by (vm_compute; reflexivity).
  apply (proj2 (validateForm_passes_iff login _ _ _ _ _ _ _ He Hp Hc Hn Hg Ha)).
  split.
  - apply email_pattern_spec. vm_compute. reflexivity.
  - split; [intros _; discriminate | intros H; discriminate H].
Defined.

(* ===================================================================== *)
(** ** Further properties: the orchestrator's state                       *)
(* ===================================================================== *)

Section StateMore.

(** The value map after a change event with a usable name, in the code's
    own terms. *)
Lemma handleChange_formData st t n :
  Event.name t = Some n -> n <> "" ->
  formData (handleChange st t)
  = <[n := match Event.type t, Event.checked t with
           | Some ty, Some checked =>
               if bool_decide (ty = "checkbox") then Js.VBoolean checked
               else Event.value t
           | _, _ => Event.value t
           end]> (formData st).
Proof.
  intros Hn Hne. unfold handleChange.
  by rewrite Hn, (bool_decide_eq_false_2 _ Hne).
Qed.

Lemma handleChange_errors_eq st t n :
  Event.name t = Some n -> n <> "" ->
  errors (handleChange st t)
  = if has_error (errors st) n then <[n := ""]> (errors st) else errors st.
Proof.
  intros Hn Hne. unfold handleChange.
  by rewrite Hn, (bool_decide_eq_false_2 _ Hne).
Qed.

Lemma submit_unfold st :
  submit st
  = if isFormValid st then
      (setErrors (validateForm (formType st) (formData st)).1 st,
       Some (if (validateForm (formType st) (formData st)).2
             then [ ConsoleLog "Form submitted:" (formData st);
                    Alert (Js.capitalize (tag (formType st))
                           +:+ " successful!") ]
             else []))
    else (st, None).
Proof.
  unfold submit, Form.handleSubmit, handleSubmit.
  cbn -[validateForm]. destruct (isFormValid st); [|done].
  by destruct (validateForm (formType st) (formData st)) as [errs []].
Qed.

Lemma step_formData st a :
  (forall t, a <> Change t) -> formData (step st a) = formData st.
Proof.
  intros Ha. unfold step. destruct (rendered st a); [|done].
  destruct a as [t| | | | |]; try done; [by destruct (Ha t)|].
  rewrite submit_unfold. by destruct (isFormValid st).
Qed.

Lemma submit_errors st :
  errors (submit st).1
  = if isFormValid st then (validateForm (formType st) (formData st)).1
    else errors st.
Proof. rewrite submit_unfold. by destruct (isFormValid st). Qed.

End StateMore.

(** X6. After a change event on a named field no error message is shown
    under that field, whatever was there before, and the entries of all other
    fields are untouched; when the field had no entry at all (and is not
    called like a member of [Object.prototype]) the error map is left as it
    was. *)
Theorem edit_hides_message (st : State) (t : Event.Target) (n : string) :
  Event.name t = Some n ->
  n <> "" ->
  let st' := handleChange st t in
  Input.shown_error (errors st' !! n) = None
  /\ (forall k, k <> n -> errors st' !! k = errors st !! k)
  /\ (errors st !! n = None -> n ∉ Js.Object_prototype_names ->
      errors st' = errors st).
Proof.
  intros Hn Hne st'. subst st'. rewrite (handleChange_errors_eq _ _ _ Hn Hne).
  unfold has_error. split; [|split].
  - destruct (errors st !! n) as [msg|] eqn:Hm.
    + destruct (decide (msg = "")) as [->|Hmsg].
      * simpl. by rewrite Hm.
      * rewrite (bool_decide_eq_false_2 _ Hmsg). simpl.
        by rewrite lookup_insert_eq.
    + case_bool_decide; [by rewrite lookup_insert_eq | by rewrite Hm].
  - intros k Hk. destruct (errors st !! n) as [msg|];
      [destruct (negb _)|case_bool_decide]; try done;
      by rewrite lookup_insert_ne.
  - intros -> Hproto. by rewrite (bool_decide_eq_false_2 _ Hproto).
Qed.

Lemma edit_hides_message_witness :
  Event.name Scenario.edit_email = Some "email"
  /\ Input.shown_error
       (errors (handleChange Scenario.after_failed_login Scenario.edit_email)
          !! "email") = None.
Proof.
  split; [reflexivity|].
  exact (proj1 (edit_hides_message Scenario.after_failed_login
                  Scenario.edit_email "email" eq_refl ltac:(discriminate))).
Defined.



(** X8. Only a change event alters the value record: submit gestures and
    the four mode links keep every field value. And the mode changes only
    through a link that is rendered: from Login by "Forgot your password?"
    or "Sign up", from Register by "Sign in", from ForgotPassword by
    "Back to login"; there is no step between Register and
    ForgotPassword. *)
Theorem step_keeps_data_and_mode (st : State) (a : Action) :
  ((forall t, a <> Change t) -> formData (step st a) = formData st)
  /\ (formType (step st a) <> formType st ->
      (formType st = login /\ a = ClickForgotPassword
       /\ formType (step st a) = forgot)
      \/ (formType st = login /\ a = ClickSignUp
          /\ formType (step st a) = register)
      \/ (formType st = register /\ a = ClickSignIn
          /\ formType (step st a) = login)
      \/ (formType st = forgot /\ a = ClickBackToLogin
          /\ formType (step st a) = login)).
Proof.
  split; [apply step_formData|].
  unfold step, rendered.
  destruct a as [t| | | | |]; try case_bool_decide; simpl; try done.
  - intros H. by destruct H; apply handleChange_formType.
  - rewrite submit_unfold. by destruct (isFormValid st).
  - naive_solver.
  - naive_solver.
  - naive_solver.
  - naive_solver.
Qed.

Lemma step_keeps_data_and_mode_witness :
  formData (step Scenario.after_failed_login ClickSignUp)
  = formData Scenario.after_failed_login.
Proof.
  apply (proj1 (step_keeps_data_and_mode Scenario.after_failed_login
                  ClickSignUp)).
  intros t H. discriminate H.
Defined.

Lemma gated_actions_keep_invalid_witness :
  errors Scenario.after_failed_login <> ∅
  /\ isFormValid
       (foldl step Scenario.after_failed_login
          [Change Scenario.edit_email; Submit; ClickForgotPassword])
     = false.
Proof.
  assert (H : errors Scenario.after_failed_login <> ∅).
  { intros H. apply (f_equal (fun m => m !! "email")) in H.
    vm_compute in H. discriminate H. }
  split; [exact H|].
  apply (gated_actions_keep_invalid
           [Change Scenario.edit_email; Submit; ClickForgotPassword]
           Scenario.after_failed_login H).
  repeat constructor.
Defined.

(* ===================================================================== *)
(** ** Further properties: what the page keeps true along a session       *)
(* ===================================================================== *)

Section PageInvariants.

Lemma field_names_in_dom k :
  k ∈ Page.field_names -> k ∈ dom initial_formData.
Proof.
  intros Hk. unfold Page.field_names in Hk.
  repeat (apply elem_of_cons in Hk as [->|Hk]);
    [..|by apply elem_of_nil in Hk];
    apply elem_of_dom; vm_compute; by eexists.
Qed.

Lemma field_names_not_prototype k :
  k ∈ Page.field_names -> k ∉ Js.Object_prototype_names.
Proof.
  intros Hk. unfold Page.field_names in Hk.
  repeat (apply elem_of_cons in Hk as [->|Hk]);
    [..|by apply elem_of_nil in Hk];
    unfold Js.Object_prototype_names; rewrite !not_elem_of_cons;
    repeat split; try discriminate; apply not_elem_of_nil.
Qed.

Lemma conforms_insert fd k v :
  Page.conforms fd -> k ∈ Page.field_names -> Page.field_type k v ->
  Page.conforms (<[k := v]> fd).
Proof.
  intros [Hdom Hty] Hk Hv. split.
  - rewrite dom_insert_L, Hdom.
    apply field_names_in_dom in Hk.
    apply subseteq_union_1_L. by apply singleton_subseteq_l.
  - intros k' v' Hl. destruct (decide (k = k')) as [<-|Hne].
    + rewrite lookup_insert_eq in Hl. by injection Hl as <-.
    + rewrite lookup_insert_ne in Hl by done. eauto.
Qed.

Lemma option_values (o : Option) (options : list Option) :
  o ∈ options -> opt_value o ∈ Page.values options.
Proof. intros Ho. unfold Page.values. by apply (list_elem_of_fmap_2 opt_value). Qed.

Lemma toggle_NoDup name (l : list string) (x : string) :
  NoDup l -> NoDup (CheckboxGroup.emitted_values (CheckboxGroup.toggle name l x)).
Proof.
  intros Hl. unfold CheckboxGroup.toggle, CheckboxGroup.rendered_checked.
  rewrite emitted_handleChange. case_bool_decide as Hx; cbn [negb].
  - by apply NoDup_filter.
  - apply NoDup_app. split; [done|]. split; [|apply NoDup_singleton].
    intros y Hy ->%list_elem_of_singleton. done.
Qed.

Lemma toggle_subseteq name (l vs : list string) (x : string) :
  l ⊆ vs -> x ∈ vs ->
  CheckboxGroup.emitted_values (CheckboxGroup.toggle name l x) ⊆ vs.
Proof.
  intros Hl Hx. unfold CheckboxGroup.toggle. rewrite emitted_handleChange.
  destruct (negb _).
  - intros y [Hy| ->%list_elem_of_singleton]%elem_of_app; auto.
  - intros y [_ Hy]%list_elem_of_filter. auto.
Qed.

(** What each gesture makes the change handler store. *)
Lemma change_event_stores st g t :
  Page.conforms (formData st) ->
  Page.change_event st g = Some t ->
  exists k v,
    k ∈ Page.field_names /\ Page.field_type k v
    /\ Event.name t = Some k /\ k <> ""
    /\ formData (handleChange st t) = <[k := v]> (formData st).
Proof.
  intros [Hdom Hty] Hev. unfold Page.change_event in Hev.
  destruct (Page.rendered_in g (formType st) && Page.offered g) eqn:Hr;
    [|done].
  apply andb_true_iff in Hr as [_ Hoff].
  assert (Hin : forall k, k ∈ Page.field_names <->
    k ∈ ["email"; "password"; "confirmPassword"; "name"; "gender"; "role";
         "rememberMe"; "acceptTerms"; "bio"; "interests";
         "marketingPreferences"]) by done.
  destruct g; simpl in Hoff; try apply bool_decide_eq_true in Hoff.
  - injection Hev as <-. exists "email", (Js.VString v).
    rewrite Hin, !elem_of_cons. unfold Page.field_type, Page.text_fields.
    rewrite !elem_of_cons. repeat split; auto; try discriminate.
  - injection Hev as <-. exists "password", (Js.VString v).
    rewrite Hin, !elem_of_cons. unfold Page.field_type, Page.text_fields.
    rewrite !elem_of_cons. repeat split; auto; try discriminate.
  - injection Hev as <-. exists "confirmPassword", (Js.VString v).
    rewrite Hin, !elem_of_cons. unfold Page.field_type, Page.text_fields.
    rewrite !elem_of_cons. repeat split; auto 6; try discriminate.
  - injection Hev as <-. exists "name", (Js.VString v).
    rewrite Hin, !elem_of_cons. unfold Page.field_type, Page.text_fields.
    rewrite !elem_of_cons. repeat split; auto 6; try discriminate.
  - injection Hev as <-. exists "gender", (Js.VString (opt_value o)).
    rewrite Hin, !elem_of_cons. apply option_values in Hoff.
    unfold Page.field_type. repeat split; auto 8; try discriminate.
  - injection Hev as <-. exists "role", (Js.VString (opt_value o)).
    rewrite Hin, !elem_of_cons. apply option_values in Hoff.
    unfold Page.field_type. repeat split; auto 8; try discriminate.
  - destruct (Js.get (formData st) "interests") as [|l| |] eqn:Hl; try done.
    injection Hev as <-.
    assert (Hl' : formData st !! "interests" = Some (Js.VArray l)).
    { unfold Js.get in Hl.
      destruct (formData st !! "interests") as [w|]; simpl in Hl;
        [by subst | discriminate Hl]. }
    destruct (Hty _ _ Hl') as (_ & Hnd & Hsub).
    exists "interests",
      (Js.VArray (CheckboxGroup.emitted_values
                    (CheckboxGroup.toggle (Some "interests") l (opt_value o)))).
    rewrite Hin, !elem_of_cons. apply option_values in Hoff.
    unfold Page.field_type. repeat split; auto 12; try discriminate.
    + by apply toggle_NoDup.
    + by apply toggle_subseteq.
  - injection Hev as <-.
    exists "marketingPreferences", (Js.VString (opt_value o)).
    rewrite Hin, !elem_of_cons. apply option_values in Hoff.
    unfold Page.field_type. repeat split; auto 14; try discriminate.
  - injection Hev as <-. exists "bio", (Js.VString v).
    rewrite Hin, !elem_of_cons. unfold Page.field_type, Page.text_fields.
    rewrite !elem_of_cons. repeat split; auto 10; try discriminate.
  - injection Hev as <-. eexists "acceptTerms", (Js.VBoolean _).
    rewrite Hin, !elem_of_cons. unfold Page.field_type.
    repeat split; auto 10; try discriminate.
  - injection Hev as <-. eexists "rememberMe", (Js.VBoolean _).
    rewrite Hin, !elem_of_cons. unfold Page.field_type.
    repeat split; auto 10; try discriminate.
Qed.

Lemma step_change st t : step st (Change t) = handleChange st t.
Proof. reflexivity. Qed.

Lemma page_step_formData st u :
  (forall g, u <> Page.Edit g) -> formData (Page.page_step st u) = formData st.
Proof.
  intros Hu. destruct u as [g| | | | |]; simpl;
    [by destruct (Hu g)|..]; apply step_formData; intros t H; discriminate H.
Qed.

Lemma page_step_conforms st u :
  Page.conforms (formData st) -> Page.conforms (formData (Page.page_step st u)).
Proof.
  intros Hc. destruct u as [g| | | | |];
    try (rewrite page_step_formData; [done | intros g H; discriminate H]).
  cbn [Page.page_step].
  destruct (Page.change_event st g) as [t|] eqn:Hev; [|done].
  rewrite step_change.
  destruct (change_event_stores _ _ _ Hc Hev) as (k & v & Hk & Hv & _ & _ & ->).
  by apply conforms_insert.
Qed.

Lemma page_step_error_keys st u :
  Page.conforms (formData st) ->
  dom (errors st) ⊆ list_to_set Page.validated_fields ->
  dom (errors (Page.page_step st u)) ⊆ list_to_set Page.validated_fields.
Proof.
  intros Hc Hd. destruct u as [g| | | | |]; cbn [Page.page_step].
  - destruct (Page.change_event st g) as [t|] eqn:Hev; [|done].
    destruct (change_event_stores _ _ _ Hc Hev)
      as (k & v & Hk & _ & Hn & Hne & _).
    rewrite step_change, (handleChange_errors_eq _ _ _ Hn Hne).
    unfold has_error. destruct (errors st !! k) as [msg|] eqn:Hm.
    + destruct (negb _); [|done]. rewrite dom_insert_L.
      apply elem_of_dom_2 in Hm. set_solver.
    + by rewrite (bool_decide_eq_false_2 _ (field_names_not_prototype _ Hk)).
  - change (step st Submit) with (submit st).1. rewrite submit_errors.
    destruct (isFormValid st); [|done].
    intros k [msg Hk]%elem_of_dom. apply elem_of_list_to_set.
    apply validateForm_entry in Hk. unfold Page.validated_fields.
    rewrite !elem_of_cons. naive_solver.
  - unfold step, rendered. case_bool_decide; exact Hd.
  - unfold step, rendered. case_bool_decide; [|exact Hd].
    change (errors (signUp_onClick st)) with (∅ : gmap string string).
    rewrite dom_empty_L. apply empty_subseteq.
  - unfold step, rendered. case_bool_decide; [|exact Hd].
    change (errors (signIn_onClick st)) with (∅ : gmap string string).
    rewrite dom_empty_L. apply empty_subseteq.
  - unfold step, rendered. case_bool_decide; [|exact Hd].
    change (errors (backToLogin_onClick st)) with (∅ : gmap string string).
    rewrite dom_empty_L. apply empty_subseteq.
Qed.

Lemma init_conforms : Page.conforms initial_formData.
Proof.
  split; [done|]. intros k v Hk.
  assert (Hin : k ∈ dom initial_formData) by by apply elem_of_dom_2 in Hk.
  unfold initial_formData in Hin. rewrite !dom_insert_L, dom_empty_L in Hin.
  unfold Page.field_type, Page.text_fields.
  repeat (apply elem_of_union in Hin as [->%elem_of_singleton|Hin];
          [vm_compute in Hk; injection Hk as <-; rewrite ?elem_of_cons;
           try by auto 10|]).
  - right; right; left. split; [done|]. unfold Page.values. simpl. by left.
  - split; [done|]. split; [constructor | apply list_subseteq_nil].
  - set_solver.
Qed.

Lemma run_invariant (session : list Page.UserAction) :
  Page.conforms (formData (Page.run session))
  /\ dom (errors (Page.run session)) ⊆ list_to_set Page.validated_fields.
Proof.
  unfold Page.run. rewrite <- (reverse_involutive session).
  induction (reverse session) as [|u us [IH1 IH2]].
  - split; [apply init_conforms | done].
  - rewrite reverse_cons, foldl_app. simpl. split.
    + by apply page_step_conforms.
    + by apply page_step_error_keys.
Qed.

End PageInvariants.

(** X10. Along every session of user actions on the page, starting from the
    mount, the value record keeps exactly its eleven fields and each holds a
    value of its declared shape: the five text fields hold strings; gender,
    role and marketingPreferences hold the empty string or the value of one
    of their options (role always one of its options); rememberMe and
    acceptTerms hold booleans; interests holds an array, without repeats, of
    values of the interest options. *)
Theorem run_conforms (session : list Page.UserAction) :
  Page.conforms (formData (Page.run session)).
Proof. apply run_invariant. Qed.

(** X11. Along every session of user actions on the page, the error map
    only ever has keys among the six validated fields: email, password,
    confirmPassword, name, gender, acceptTerms. *)
Theorem run_error_keys (session : list Page.UserAction) :
  dom (errors (Page.run session)) ⊆ list_to_set Page.validated_fields.
Proof. apply run_invariant. Qed.

(* ===================================================================== *)
(** ** Further properties: the controls wired to the orchestrator         *)
(* ===================================================================== *)

Section ControlFacts.

Lemma values_inj (options : list Option) (o o' : Option) :
  NoDup (Page.values options) -> o ∈ options -> o' ∈ options ->
  opt_value o' = opt_value o -> o' = o.
Proof.
  unfold Page.values. induction options as [|x l IH]; simpl.
  - intros _ Ho. by apply elem_of_nil in Ho.
  - intros [Hx Hl]%NoDup_cons [->|Ho]%elem_of_cons [->|Ho']%elem_of_cons Heq;
      auto.
    + destruct Hx. rewrite <- Heq.
      by apply (list_elem_of_fmap_2 opt_value).
    + destruct Hx. rewrite Heq.
      by apply (list_elem_of_fmap_2 opt_value).
Qed.

Lemma find_first_value (options : list Option) (o : Option) :
  NoDup (Page.values options) -> o ∈ options ->
  Popover.selectedOption options (Js.VString (opt_value o)) = Some o.
Proof.
  intros Hnd Ho. unfold Popover.selectedOption.
  induction options as [|x l IH]; [by apply elem_of_nil in Ho|]. simpl.
  case_bool_decide as Hx.
  - f_equal. apply (values_inj (x :: l)); auto. by left.
  - apply elem_of_cons in Ho as [->|Ho]; [done|].
    apply IH; [|done]. unfold Page.values in *. simpl in Hnd.
    by apply NoDup_cons in Hnd as [_ ?].
Qed.

Lemma find_absent (options : list Option) (v : Js.Value) :
  (forall o, o ∈ options -> v <> Js.VString (opt_value o)) ->
  Popover.selectedOption options v = None.
Proof.
  unfold Popover.selectedOption. induction options as [|x l IH]; [done|].
  intros H. cbn [List.find].
  assert (Hx : Js.strict_equal (Js.VString (opt_value x)) v = false).
  { destruct v as [s| | |]; simpl; try done.
    apply bool_decide_eq_false_2. intros Heq.
    apply (H x); [by left | by rewrite Heq]. }
  rewrite Hx. apply IH. intros o Ho. apply H. by right.
Qed.

Lemma includes_app_inner (s pre t post : string) :
  Js.includes s (pre +:+ t +:+ post) = true -> Js.includes s t = true.
Proof.
  rewrite !includes_spec. intros (a & b & ->).
  exists (a +:+ pre), (post +:+ b). by rewrite !app_assoc_str.
Qed.

Lemma filter_sublist_impl {A} (f g : A -> bool) (l : list A) :
  (forall x, f x = true -> g x = true) ->
  sublist (List.filter f l) (List.filter g l).
Proof.
  intros Hfg. induction l as [|x l IH]; simpl; [done|].
  destruct (f x) eqn:Hf.
  - rewrite (Hfg _ Hf). by constructor.
  - destruct (g x); [by constructor | done].
Qed.

Lemma filter_sublist_self {A} (f : A -> bool) (l : list A) :
  sublist (List.filter f l) l.
Proof.
  induction l as [|x l IH]; simpl; [done|].
  destruct (f x); by constructor.
Qed.

Lemma filter_all {A} (f : A -> bool) (l : list A) :
  (forall x, f x = true) -> List.filter f l = l.
Proof.
  intros Hf. induction l as [|x l IH]; simpl; [done|].
  by rewrite Hf, IH.
Qed.

Lemma includes_empty (s : string) : Js.includes s "" = true.
Proof. apply includes_spec. by exists "", s. Qed.

End ControlFacts.

(** X12. Clicking the Toggle switch of a boolean field stores the negated
    flag under the field's name, and clicking it a second time gives back the
    value record one started from. *)
Theorem Toggle_twice (st : State) (n : string) (b : bool) :
  n <> "" ->
  formData st !! n = Some (Js.VBoolean b) ->
  let click s :=
    handleChange s
      (Toggle.handleToggle (Some n) (Js.truthy (Js.get (formData s) n))) in
  formData (click st) = <[n := Js.VBoolean (negb b)]> (formData st)
  /\ formData (click (click st)) = formData st.
Proof.
  intros Hne Hb click.
  assert (H1 : formData (click st) = <[n := Js.VBoolean (negb b)]> (formData st)).
  { subst click. cbv beta.
    rewrite (handleChange_formData _ _ n) by done.
    by rewrite (get_lookup _ _ _ Hb). }
  split; [done|].
  subst click. cbv beta in *.
  rewrite (handleChange_formData _ _ n) by done. rewrite H1.
  unfold Js.get. rewrite lookup_insert_eq. simpl.
  rewrite insert_insert_eq, negb_involutive. by apply insert_id.
Qed.

Lemma Toggle_twice_witness :
  init.(formData) !! "rememberMe" = Some (Js.VBoolean false)
  /\ formData
       (handleChange init
          (Toggle.handleToggle (Some "rememberMe")
             (Js.truthy (Js.get (formData init) "rememberMe"))))
     = <["rememberMe" := Js.VBoolean true]> (formData init).
Proof.
  assert (H : init.(formData) !! "rememberMe" = Some (Js.VBoolean false))
    by (vm_compute; reflexivity).
  split; [exact H|].
  exact (proj1 (Toggle_twice init "rememberMe" false ltac:(discriminate) H)).
Defined.

(** X13. When the option values of a Radio Group are pairwise different,
    choosing an option stores its value under the group's name and the group
    is then rendered with exactly that option's radio checked. A stored value
    that is no option's value leaves every radio unchecked. *)
Theorem RadioGroup_checks_the_choice
    (st : State) (n : string) (options : list Option) (o : Option) :
  n <> "" ->
  NoDup (Page.values options) ->
  o ∈ options ->
  let st' := handleChange st (RadioGroup.pick (Some n) o) in
  formData st' !! n = Some (Js.VString (opt_value o))
  /\ RadioGroup.rendered options (Js.get (formData st') n)
     = List.map (fun o' => (o', bool_decide (o' = o))) options
  /\ (forall v, (forall o', o' ∈ options -> v <> Js.VString (opt_value o')) ->
      RadioGroup.rendered options v = List.map (fun o' => (o', false)) options).
Proof.
  intros Hne Hnd Ho st'.
  assert (Hfd : formData st' !! n = Some (Js.VString (opt_value o))).
  { subst st'. rewrite (handleChange_formData _ _ n) by done.
    by rewrite lookup_insert_eq. }
  split; [done|]. split.
  - rewrite (get_lookup _ _ _ Hfd). unfold RadioGroup.rendered.
    apply map_ext_in. intros o' Ho'%list_elem_of_In. f_equal. simpl.
    apply bool_decide_ext. split; [|by intros ->].
    intros Heq. by apply (values_inj options).
  - intros v Hv. unfold RadioGroup.rendered.
    apply map_ext_in. intros o' Ho'%list_elem_of_In. f_equal.
    destruct v as [s| | |]; simpl; try done.
    apply bool_decide_eq_false_2. intros ->. by apply (Hv o').
Qed.

Lemma RadioGroup_checks_the_choice_witness :
  NoDup (Page.values Page.genderOptions)
  /\ RadioGroup.rendered Page.genderOptions
       (Js.get
          (formData (handleChange init
             (RadioGroup.pick (Some "gender")
                {| opt_value := "other"; opt_label := "Other" |})))
          "gender")
     = List.map
         (fun o' => (o', bool_decide
                           (o' = {| opt_value := "other"; opt_label := "Other" |})))
         Page.genderOptions.
Proof.
  assert (Hnd : NoDup (Page.values Page.genderOptions)).
  { apply NoDup_ListNoDup. vm_compute.
    repeat (constructor; [simpl; intuition discriminate|]). constructor. }
  split; [exact Hnd|].
  apply (proj1 (proj2 (RadioGroup_checks_the_choice init "gender"
           Page.genderOptions {| opt_value := "other"; opt_label := "Other" |}
           ltac:(discriminate) Hnd
           ltac:(right; right; left)))).
Defined.

(** X14. Toggling an option of the Checkbox Group flips the rendered state
    of that option's box and of no other box, and an array without repeats
    stays without repeats. *)
Theorem CheckboxGroup_toggle_flips_one
    (name : option string) (value : list string) (opt : string) :
  let value' :=
    CheckboxGroup.emitted_values (CheckboxGroup.toggle name value opt) in
  CheckboxGroup.rendered_checked value' opt
  = negb (CheckboxGroup.rendered_checked value opt)
  /\ (forall other, other <> opt ->
        CheckboxGroup.rendered_checked value' other
        = CheckboxGroup.rendered_checked value other)
  /\ (NoDup value -> NoDup value').
Proof.
  intros value'. split; [|split; [|apply toggle_NoDup]].
  - subst value'. unfold CheckboxGroup.toggle, CheckboxGroup.rendered_checked.
    rewrite emitted_handleChange.
    destruct (decide (opt ∈ value)) as [Hx|Hx].
    + rewrite (bool_decide_eq_true_2 _ Hx). cbn [negb].
      apply bool_decide_eq_false_2, filter_other_gone.
    + rewrite (bool_decide_eq_false_2 _ Hx). cbn [negb].
      apply bool_decide_eq_true_2, elem_of_app. right. by left.
  - intros other Hne. subst value'.
    unfold CheckboxGroup.toggle, CheckboxGroup.rendered_checked.
    rewrite emitted_handleChange. apply bool_decide_ext.
    destruct (negb _).
    + rewrite elem_of_app, list_elem_of_singleton. tauto.
    + rewrite list_elem_of_filter. tauto.
Qed.

Lemma CheckboxGroup_toggle_flips_one_witness :
  NoDup ["technology"; "music"]
  /\ NoDup (CheckboxGroup.emitted_values
              (CheckboxGroup.toggle (Some "interests")
                 ["technology"; "music"] "technology")).
Proof.
  assert (H : NoDup ["technology"; "music"]).
  { apply NoDup_ListNoDup.
    repeat (constructor; [simpl; intuition discriminate|]). constructor. }
  split; [exact H|].
  exact (proj2 (proj2 (CheckboxGroup_toggle_flips_one (Some "interests")
                         ["technology"; "music"] "technology")) H).
Defined.

(** X15. When the option values of a Select are pairwise different, clicking
    an option row stores its value under the control's name, and the button
    then shows that option's label; the click also closes the popover and
    empties the search box. A value that is no option's value makes the
    button show the placeholder. *)
Theorem Select_shows_the_choice
    (st : State) (n placeholder : string) (options : list Option) (o : Option)
    (popover : Select.State) :
  n <> "" ->
  NoDup (Page.values options) ->
  o ∈ options ->
  exists t,
    Select.row_onClick (Some n) popover (Select.OptionRow o)
    = Some (t, Select.init)
    /\ formData (handleChange st t) !! n = Some (Js.VString (opt_value o))
    /\ Popover.button_text placeholder options
         (Js.get (formData (handleChange st t)) n) = opt_label o
    /\ (forall v, (forall o', o' ∈ options -> v <> Js.VString (opt_value o')) ->
        Popover.button_text placeholder options v = placeholder).
Proof.
  intros Hne Hnd Ho. eexists. split; [reflexivity|].
  assert (Hfd : forall t, t = {| Event.name := Some n;
                 Event.value := Js.VString (opt_value o);
                 Event.type := None; Event.checked := None |} ->
            formData (handleChange st t) !! n = Some (Js.VString (opt_value o))).
  { intros t ->. rewrite (handleChange_formData _ _ n) by done.
    by rewrite lookup_insert_eq. }
  split; [by apply Hfd|]. split.
  - rewrite (get_lookup _ _ _ (Hfd _ eq_refl)). unfold Popover.button_text.
    by rewrite find_first_value.
  - intros v Hv. unfold Popover.button_text. by rewrite find_absent.
Qed.

Lemma Select_shows_the_choice_witness :
  NoDup (Page.values roleOptions)
  /\ exists t,
       Select.row_onClick (Some "role") Select.init
         (Select.OptionRow {| opt_value := "admin"; opt_label := "Administrator" |})
       = Some (t, Select.init)
       /\ Popover.button_text "Select an option" roleOptions
            (Js.get (formData (handleChange init t)) "role") = "Administrator".
Proof.
  assert (Hnd : NoDup (Page.values roleOptions)).
  { apply NoDup_ListNoDup. vm_compute.
    repeat (constructor; [simpl; intuition discriminate|]). constructor. }
  split; [exact Hnd|].
  destruct (Select_shows_the_choice init "role" "Select an option" roleOptions
              {| opt_value := "admin"; opt_label := "Administrator" |}
              Select.init ltac:(discriminate) Hnd ltac:(right; left))
    as (t & Ht & _ & Hlabel & _).
  exists t. split; [exact Ht | exact Hlabel].
Defined.

(** X16. Searching in the Select: the rows found are always a sub-list of
    the options, in their order; a search string that contains another one
    (text added before or after it) finds a sub-list of what the shorter one
    finds; the empty search string, and a disabled search, list every
    option; and every option is found by its own label typed in any case. *)
Theorem Select_search_narrows
    (options : list Option) (pre term post : string) :
  sublist (Select.filteredOptions true options term) options
  /\ sublist (Select.filteredOptions true options (pre +:+ term +:+ post))
             (Select.filteredOptions true options term)
  /\ Select.filteredOptions true options "" = options
  /\ Select.filteredOptions false options term = options
  /\ (forall o, o ∈ options ->
        Js.toLowerCase term = Js.toLowerCase (opt_label o) ->
        o ∈ Select.filteredOptions true options term).
Proof.
  unfold Select.filteredOptions. split; [|split; [|split; [|split]]].
  - apply filter_sublist_self.
  - apply filter_sublist_impl. intros o. rewrite !toLowerCase_app.
    apply includes_app_inner.
  - apply filter_all. intros o. apply includes_empty.
  - done.
  - intros o Ho Hterm. apply list_elem_of_In, filter_In.
    split; [by apply list_elem_of_In|].
    rewrite Hterm. apply includes_spec.
    exists "", "". by rewrite app_empty_l, app_empty_r.
Qed.

Lemma Select_search_narrows_witness :
  {| opt_value := "admin"; opt_label := "Administrator" |} ∈ roleOptions
  /\ {| opt_value := "admin"; opt_label := "Administrator" |}
     ∈ Select.filteredOptions true roleOptions "ADMINISTRATOR".
Proof.
  assert (H : {| opt_value := "admin"; opt_label := "Administrator" |}
              ∈ roleOptions) by (right; left).
  split; [exact H|].
  exact (proj2 (proj2 (proj2 (proj2
    (Select_search_narrows roleOptions "" "ADMINISTRATOR" ""))))
    _ H eq_refl).
Defined.

(** X17. The popover of the Select keeps the search string when it is
    closed by its button or by a click outside, so it comes back filtered the
    same way when reopened; a click inside the control, or before the control
    is mounted, changes nothing; only choosing an option clears the search,
    after which reopening lists every option. *)
Theorem Popover_keeps_search
    (options : list Option) (st : Select.State) (mounted : bool)
    (name : option string) (o : Option) :
  Select.isOpen st = true ->
  let filtered := Select.rows
                    (Select.filteredOptions true options (Select.searchTerm st)) in
  Select.displayed true options st = filtered
  /\ Select.displayed true options (Popover.handleClickOutside true false st) = []
  /\ Select.displayed true options
       (Popover.button_onClick (Popover.handleClickOutside true false st))
     = filtered
  /\ Select.displayed true options
       (Popover.button_onClick (Popover.button_onClick st)) = filtered
  /\ Popover.handleClickOutside mounted true st = st
  /\ Popover.handleClickOutside false false st = st
  /\ (forall t st', Select.row_onClick name st (Select.OptionRow o)
                    = Some (t, st') ->
        Select.displayed true options st' = []
        /\ Select.displayed true options (Popover.button_onClick st')
           = Select.rows options).
Proof.
  intros Hopen filtered. subst filtered.
  unfold Select.displayed, Popover.handleClickOutside, Popover.button_onClick.
  simpl. rewrite Hopen. simpl. repeat split; try done.
  - by destruct mounted.
  - by injection H as <- <-.
  - injection H as <- <-. simpl.
    f_equal. apply filter_all. intros x. apply includes_empty.
Qed.

Lemma Popover_keeps_search_witness :
  Select.isOpen {| Select.isOpen := true; Select.searchTerm := "admin" |} = true
  /\ Select.displayed true roleOptions
       (Popover.button_onClick
          (Popover.handleClickOutside true false
             {| Select.isOpen := true; Select.searchTerm := "admin" |}))
     = Select.rows (Select.filteredOptions true roleOptions "admin").
Proof.
  split; [reflexivity|].
  exact (proj1 (proj2 (proj2 (Popover_keeps_search roleOptions
    {| Select.isOpen := true; Select.searchTerm := "admin" |} true None
    {| opt_value := "admin"; opt_label := "Administrator" |} eq_refl)))).
Defined.

(** X18. The email check is a search, not a match of the whole string: an
    email that passes still passes with any text put before or after it,
    white space included; and an email that passes has at least five
    characters. *)
Theorem email_check_is_a_search (e pre post : string) :
  Js.test email_pattern e = true ->
  Js.test email_pattern (pre +:+ e +:+ post) = true
  /\ (5 <= String.length e)%nat.
Proof.
  rewrite !email_pattern_spec.
  intros (a & x & y & z & b & -> & Hx & Hy & Hz). split.
  - exists (pre +:+ a), x, y, z, (b +:+ post).
    split; [by rewrite !app_assoc_str | done].
  - assert (Hlen : forall s t, String.length (s +:+ t)
                               = (String.length s + String.length t)%nat).
    { intros s t. induction s as [|c s IH]; [done|].
      rewrite app_cons. simpl. by rewrite IH. }
    assert (Hpos : forall s, s <> "" -> (1 <= String.length s)%nat).
    { intros [|c s] Hs; [done | simpl; lia]. }
    destruct Hx as [Hx _], Hy as [Hy _], Hz as [Hz _].
    apply Hpos in Hx, Hy, Hz. rewrite !Hlen. simpl. lia.
Qed.

Lemma email_check_is_a_search_witness :
  Js.test email_pattern "a@b.c" = true
  /\ Js.test email_pattern ("not an email: " +:+ "a@b.c" +:+ " (sic)") = true.
Proof.
  assert (H : Js.test email_pattern "a@b.c" = true) by (vm_compute; reflexivity).
  split; [exact H|].
  exact (proj1 (email_check_is_a_search "a@b.c" "not an email: " " (sic)" H)).
Defined.

(* ===================================================================== *)
(** ** Further properties: errors come from submits, links reset them     *)
(* ===================================================================== *)

Section SessionFacts.

Lemma page_step_no_submit_errors st u :
  Page.conforms (formData st) -> errors st = ∅ -> u <> Page.PressSubmit ->
  errors (Page.page_step st u) = ∅.
Proof.
  intros Hc He Hu. destruct u as [g| | | | |]; cbn [Page.page_step]; try done.
  - destruct (Page.change_event st g) as [t|] eqn:Hev; [|done].
    destruct (change_event_stores _ _ _ Hc Hev)
      as (k & v & Hk & _ & Hn & Hne & _).
    rewrite step_change, (handleChange_errors_eq _ _ _ Hn Hne), He.
    unfold has_error. rewrite lookup_empty.
    by rewrite (bool_decide_eq_false_2 _ (field_names_not_prototype _ Hk)).
  - unfold step, rendered. by case_bool_decide.
  - unfold step, rendered. by case_bool_decide.
  - unfold step, rendered. by case_bool_decide.
  - unfold step, rendered. by case_bool_decide.
Qed.

End SessionFacts.

(** X19. Errors come from submit gestures only: along a session of edits and
    mode links that contains no submit, the error map stays empty, so the
    page stays valid and the submit button enabled. *)
Theorem no_submit_no_errors (session : list Page.UserAction) :
  Page.PressSubmit ∉ session ->
  errors (Page.run session) = ∅
  /\ isFormValid (Page.run session) = true
  /\ submit_disabled (Page.run session) = false.
Proof.
  intros Hs.
  assert (He : errors (Page.run session) = ∅).
  { revert Hs. unfold Page.run. rewrite <- (reverse_involutive session).
    induction (reverse session) as [|u us IH]; intros Hs; [done|].
    rewrite reverse_cons in Hs. rewrite reverse_cons, foldl_app. simpl.
    apply not_elem_of_app in Hs as [Hs Hu].
    apply page_step_no_submit_errors; [apply run_invariant | by apply IH |].
    intros ->. apply Hu. by left. }
  split; [done|].
  assert (Hv : isFormValid (Page.run session) = true) by by apply isFormValid_spec.
  split; [done|]. unfold submit_disabled. by rewrite Hv.
Qed.

Lemma no_submit_no_errors_witness :
  (Page.PressSubmit ∉ [Page.Edit (Page.TypeEmail "bad-format"); Page.SignUpLink;
                       Page.Edit (Page.TypeBio "hello")])
  /\ errors (Page.run [Page.Edit (Page.TypeEmail "bad-format"); Page.SignUpLink;
                       Page.Edit (Page.TypeBio "hello")]) = ∅.
Proof.
  assert (H : Page.PressSubmit ∉ [Page.Edit (Page.TypeEmail "bad-format");
                                  Page.SignUpLink;
                                  Page.Edit (Page.TypeBio "hello")]).
  { intros Hin. apply list_elem_of_In in Hin. simpl in Hin.
    destruct Hin as [Heq|[Heq|[Heq|[]]]]; discriminate Heq. }
  split; [exact H|].
  exact (proj1 (no_submit_no_errors _ H)).
Defined.

(** X20. Leaving a mode through its link and coming straight back gives the
    same mode with an empty error map and every field value as it was, so
    the page is valid again: Login to Register and back, Register to Login
    and back, ForgotPassword to Login and back. *)
Theorem mode_round_trip_resets_errors (st : State) :
  let there_and_back :=
    match formType st with
    | login => step (step st ClickSignUp) ClickSignIn
    | register => step (step st ClickSignIn) ClickSignUp
    | forgot => step (step st ClickBackToLogin) ClickForgotPassword
    end in
  formType there_and_back = formType st
  /\ formData there_and_back = formData st
  /\ errors there_and_back = ∅
  /\ isFormValid there_and_back = true.
Proof.
  destruct st as [ft fd errs]. destruct ft; cbv zeta; simpl;
    repeat split; by apply isFormValid_spec.
Qed.
